(** * Shelter patrol planner: the vehicle-routing core of [main.py]

    The script's only algorithmic part is [solve_vrp]: it builds an integer
    distance matrix from coordinates, hands it to the OR-Tools routing solver,
    walks the returned assignment into one coordinate route per vehicle and
    stores the routes, a distance and a time estimate in the session state.

    The embedding follows the function line by line.  Two things the script
    only calls are kept at arm's length:
    - Python/shapely floating point sits behind the interface [FloatOps];
      [Binary64] instantiates it with IEEE binary64 numbers;
    - the OR-Tools search is a function [SolveWithParameters] of the routing
      model; what a returned assignment is known to satisfy is the
      executable check [solution_ok]. *)

From Stdlib Require Import ZArith Lia Floats.
From stdpp Require Import base list numbers strings gmap.

Open Scope Z_scope.

(** ** Outcomes of Python code *)

(** Exceptions the modelled lines can raise. *)
Inductive exn : Type :=
  | ValueError      (* int(nan) *)
  | OverflowError   (* int(inf), or an int that does not fit an int64 cell *)
  | IndexError.     (* list index out of range *)

(** A computation returns, raises, or (for the [while] loop, which the model
    runs on fuel) is cut off. *)
Inductive result (A : Type) : Type :=
  | Ok (a : A)
  | Raise (e : exn)
  | OutOfFuel.
Arguments Ok {A} a.
Arguments Raise {A} e.
Arguments OutOfFuel {A}.

Definition bind {A B} (c : result A) (k : A -> result B) : result B :=
  match c with
  | Ok a => k a
  | Raise e => Raise e
  | OutOfFuel => OutOfFuel
  end.

Declare Scope py_scope.
Delimit Scope py_scope with py.
Notation "'do' x <- c ; k" := (bind c (fun x => k))
  (at level 10, x name, c at level 100, k at level 200,
   format "'[v' 'do'  x  <-  c ; '/' k ']'") : py_scope.
Open Scope py_scope.

(** [for x in xs: s = body(s, x)], stopping at the first exception. *)
Fixpoint for_each {A S : Type} (xs : list A) (body : S -> A -> result S) (s : S)
  : result S :=
  match xs with
  | [] => Ok s
  | x :: xs' => do s' <- body s x; for_each xs' body s'
  end.

(** [range(n)] *)
Definition range (n : nat) : list nat := seq 0 n.

(** ** Floating point, as far as the script uses it *)

Record FloatOps : Type := {
  float : Type;
  (** [Point(a).distance(Point(b))] of shapely *)
  point_distance : float * float -> float * float -> float;
  (** [x * k] for a float [x] and an int [k] *)
  fmul_int : float -> Z -> float;
  (** [int(x)]: truncation; raises on nan and on the infinities *)
  int_of_float : float -> result Z;
  (** [i / k] for two ints (true division) *)
  int_truediv : Z -> Z -> float;
  (** [x / y] *)
  fdiv : float -> float -> float;
  (** [round(x, ndigits)] *)
  round_ndigits : float -> Z -> float;
  (** [x + k] for a float [x] and an int [k] *)
  fadd_int : float -> Z -> float;
  (** the literal [0.667] *)
  lit_0_667 : float
}.

(** ** The distance matrix (lines 124-132) *)

Abbreviation matrix := (list (list Z)).

(** [np.zeros((n, n), dtype=int)] *)
Definition np_zeros (n : nat) : matrix := replicate n (replicate n 0).

(** [m[i][j]] read back as a Python int; rows and columns are in range at
    every use. *)
Definition getitem (m : matrix) (i j : nat) : Z :=
  default 0 (m !! i ≫= fun row => row !! j).

Definition fits_int64 (v : Z) : bool :=
  (- 2 ^ 63 <=? v) && (v <? 2 ^ 63).

(** [m[i][j] = v] on an int64 array: numpy refuses a Python int outside the
    cell's range. *)
Definition setitem (m : matrix) (i j : nat) (v : Z) : result matrix :=
  if fits_int64 v
  then Ok (<[i := <[j := v]> (default [] (m !! i))]> m)
  else Raise OverflowError.

(** [xs[i]] on a Python list *)
Definition list_getitem {A} (xs : list A) (i : nat) : result A :=
  match xs !! i with
  | Some x => Ok x
  | None => Raise IndexError
  end.

(** A location is a (latitude, longitude) pair of floats. *)
Abbreviation Location fl := (float fl * float fl)%type.

Section DistanceMatrix.
Context {fl : FloatOps}.

(** [int(Point(a).distance(Point(b)) * 100000)] *)
Definition scaled_distance (a b : Location fl) : result Z :=
  int_of_float fl (fmul_int fl (point_distance fl a b) 100000).

(** The body of the two nested loops, lines 131-132. *)
Definition fill_cell (locations : list (Location fl)) (i : nat)
    (distance_matrix : matrix) (j : nat) : result matrix :=
  if decide (i ≠ j) then
    do a <- list_getitem locations i;
    do b <- list_getitem locations j;
    do v <- scaled_distance a b;
    setitem distance_matrix i j v
  else Ok distance_matrix.

Definition fill_row (locations : list (Location fl)) (num_locations : nat)
    (distance_matrix : matrix) (i : nat) : result matrix :=
  for_each (range num_locations) (fill_cell locations i) distance_matrix.

Definition build_distance_matrix (locations : list (Location fl)) : result matrix :=
  let num_locations := length locations in
  for_each (range num_locations) (fill_row locations num_locations)
    (np_zeros num_locations).
End DistanceMatrix.

(** ** The OR-Tools routing objects the script drives (lines 135-155)

    Only the calls the script makes are modelled.  The index manager lays out
    its indices as the library does for a single depot: index [i] stands for
    node [i] when [i < num_nodes]; vehicle 0 starts at the depot's index, each
    further vehicle gets a start index of its own after the nodes, and every
    vehicle gets an end index after those. *)

Record RoutingIndexManager : Type := {
  num_nodes : nat;
  manager_vehicles : nat;
  depot : nat
}.

Definition IndexToNode (manager : RoutingIndexManager) (index : nat) : nat :=
  if decide (index < num_nodes manager)%nat then index else depot manager.

Record RoutingModel : Type := {
  manager_of : RoutingIndexManager;
  transit_callbacks : list (nat -> nat -> Z);
  arc_cost_evaluator : option nat;
  fixed_cost : Z
}.

(** [pywrapcp.RoutingModel(manager)] *)
Definition new_RoutingModel (manager : RoutingIndexManager) : RoutingModel :=
  {| manager_of := manager; transit_callbacks := [];
     arc_cost_evaluator := None; fixed_cost := 0 |}.

Definition RegisterTransitCallback (routing : RoutingModel)
    (callback : nat -> nat -> Z) : RoutingModel * nat :=
  ({| manager_of := manager_of routing;
      transit_callbacks := transit_callbacks routing ++ [callback];
      arc_cost_evaluator := arc_cost_evaluator routing;
      fixed_cost := fixed_cost routing |},
   length (transit_callbacks routing)).

Definition SetArcCostEvaluatorOfAllVehicles (routing : RoutingModel)
    (evaluator_index : nat) : RoutingModel :=
  {| manager_of := manager_of routing;
     transit_callbacks := transit_callbacks routing;
     arc_cost_evaluator := Some evaluator_index;
     fixed_cost := fixed_cost routing |}.

Definition SetFixedCostOfAllVehicles (routing : RoutingModel) (cost : Z)
  : RoutingModel :=
  {| manager_of := manager_of routing;
     transit_callbacks := transit_callbacks routing;
     arc_cost_evaluator := arc_cost_evaluator routing;
     fixed_cost := cost |}.

Definition vehicles (routing : RoutingModel) : nat :=
  manager_vehicles (manager_of routing).

(** [routing.Size()]: the indices that have a successor, that is all but the
    vehicles' end indices.  The count is the library's for at least one
    vehicle, which is what the page's slider (1 to 25) provides. *)
Definition Size (routing : RoutingModel) : nat :=
  (num_nodes (manager_of routing) + vehicles routing - 1)%nat.

Definition Start (routing : RoutingModel) (vehicle_id : nat) : nat :=
  if decide (vehicle_id = 0%nat) then depot (manager_of routing)
  else (num_nodes (manager_of routing) + vehicle_id - 1)%nat.

Definition End (routing : RoutingModel) (vehicle_id : nat) : nat :=
  (Size routing + vehicle_id)%nat.

Definition IsEnd (routing : RoutingModel) (index : nat) : bool :=
  bool_decide (Size routing <= index)%nat.

Definition IsStart (routing : RoutingModel) (index : nat) : bool :=
  existsb (fun v => bool_decide (Start routing v = index)) (range (vehicles routing)).

(** The cost the model charges for the arc between two indices. *)
Definition arc_cost (routing : RoutingModel) (from_index to_index : nat) : Z :=
  match arc_cost_evaluator routing ≫= fun k => transit_callbacks routing !! k with
  | Some callback => callback from_index to_index
  | None => 0
  end.

Inductive FirstSolutionStrategy : Type := AUTOMATIC | PATH_CHEAPEST_ARC.
Inductive LocalSearchMetaheuristic : Type := AUTOMATIC_LS | GUIDED_LOCAL_SEARCH.

Record RoutingSearchParameters : Type := {
  first_solution_strategy : FirstSolutionStrategy;
  local_search_metaheuristic : LocalSearchMetaheuristic;
  time_limit_seconds : Z
}.

(** What the script reads from a solution: the objective and, for every index
    that has one, the successor chosen for it
    ([solution.Value(routing.NextVar(index))]). *)
Record Assignment : Type := {
  ObjectiveValue : Z;
  NextValue : nat -> nat
}.

(** *** What a returned assignment satisfies

    The script adds no disjunction, so every node is mandatory.  The routing
    model's constraints on the successors are then: successors stay inside the
    index range and are never a vehicle's start, they are pairwise different,
    following them from any index leads to an end index (no cycle), and each
    vehicle's chain leads from its start to its own end.  The objective is the
    sum of the arc costs along the vehicles' chains plus the fixed cost of each
    vehicle whose route visits something. *)

(** The indices met from [index] on, up to the first end index, which comes
    back with them. *)
Fixpoint walk (routing : RoutingModel) (solution : Assignment) (fuel : nat)
    (index : nat) : option (list nat * nat) :=
  match fuel with
  | O => None
  | S fuel' =>
      if IsEnd routing index then Some ([], index)
      else '(p, e) ← walk routing solution fuel' (NextValue solution index);
           Some (index :: p, e)
  end.

Definition vehicle_path (routing : RoutingModel) (solution : Assignment)
    (vehicle_id : nat) : option (list nat * nat) :=
  walk routing solution (S (Size routing)) (Start routing vehicle_id).

Definition sum_list_Z (l : list Z) : Z := foldr Z.add 0 l.

(** Arc costs along a chain of indices, each taken to its successor. *)
Definition path_arc_cost (routing : RoutingModel) (solution : Assignment)
    (p : list nat) : Z :=
  sum_list_Z ((fun i => arc_cost routing i (NextValue solution i)) <$> p).

(** A vehicle that goes from its start straight to its end is unused and
    costs nothing; a used one pays its arcs and the fixed cost. *)
Definition route_cost (routing : RoutingModel) (solution : Assignment)
    (vehicle_id : nat) : Z :=
  match vehicle_path routing solution vehicle_id with
  | Some (p, _) =>
      if decide (1 < length p)%nat
      then path_arc_cost routing solution p + fixed_cost routing
      else 0
  | None => 0
  end.

Definition objective (routing : RoutingModel) (solution : Assignment) : Z :=
  sum_list_Z (route_cost routing solution <$> range (vehicles routing)).

Record valid_solution (routing : RoutingModel) (solution : Assignment) : Prop := {
  next_in_range :
    Forall (fun i => (NextValue solution i < Size routing + vehicles routing)%nat)
           (range (Size routing));
  next_not_start :
    Forall (fun i => IsStart routing (NextValue solution i) = false)
           (range (Size routing));
  next_all_different :
    NoDup (NextValue solution <$> range (Size routing));
  no_cycle :
    Forall (fun i => is_Some (walk routing solution (S (Size routing)) i))
           (range (Size routing));
  start_to_end :
    Forall (fun v => snd <$> vehicle_path routing solution v = Some (End routing v))
           (range (vehicles routing));
  objective_value :
    ObjectiveValue solution = objective routing solution
}.

Global Instance valid_solution_dec routing solution :
  Decision (valid_solution routing solution).
Proof.
  refine (cast_if (decide (
    Forall (fun i => (NextValue solution i < Size routing + vehicles routing)%nat)
           (range (Size routing)) /\
    Forall (fun i => IsStart routing (NextValue solution i) = false)
           (range (Size routing)) /\
    NoDup (NextValue solution <$> range (Size routing)) /\
    Forall (fun i => is_Some (walk routing solution (S (Size routing)) i))
           (range (Size routing)) /\
    Forall (fun v => snd <$> vehicle_path routing solution v = Some (End routing v))
           (range (vehicles routing)) /\
    ObjectiveValue solution = objective routing solution))).
  - destruct a as (? & ? & ? & ? & ? & ?). by constructor.
  - intros []. apply n. auto 10.
Defined.

Definition solution_ok (routing : RoutingModel) (solution : Assignment) : bool :=
  bool_decide (valid_solution routing solution).

(** ** The session state and [solve_vrp] (lines 119-182) *)

(** A message shown in the page. *)
Inductive event : Type :=
  | st_warning (message : string).

(** The three session entries the function writes, over the type [F] of
    floats. *)
Record session_state (F : Type) : Type := {
  route_data : list (list (F * F));
  route_distance : option F;
  route_time : option F
}.
Arguments Build_session_state {F} _ _ _.
Arguments route_data {F} _.
Arguments route_distance {F} _.
Arguments route_time {F} _.

Section SolveVrp.
Context {fl : FloatOps}.

(** [routing.SolveWithParameters]: the search itself is the library's. *)
Variable SolveWithParameters :
  RoutingModel -> RoutingSearchParameters -> option Assignment.

Section Extraction.
Variables (locations : list (Location fl)) (start_point : Location fl)
          (manager : RoutingIndexManager) (routing : RoutingModel)
          (solution : Assignment).

(** [locations[node]]; [node] comes out of [IndexToNode] and is below
    [num_locations] (lemma [IndexToNode_in_locations]), so the default is
    never used. *)
Definition location_of (node : nat) : Location fl :=
  default start_point (locations !! node).

(** The [while not routing.IsEnd(index)] loop, lines 165-168. *)
Fixpoint route_loop (fuel : nat) (index : nat) (route : list (Location fl))
  : result (list (Location fl)) :=
  match fuel with
  | O => OutOfFuel
  | S fuel' =>
      if IsEnd routing index then Ok route
      else
        let node := IndexToNode manager index in
        let route := route ++ [location_of node] in
        let index := NextValue solution index in
        route_loop fuel' index route
  end.

(** The body of the loop over the vehicles, lines 163-177; the state is
    the route list being filled and [total_stop_time]. *)
Definition vehicle_body (fuel : nat)
    (acc : list (list (Location fl)) * Z) (vehicle_id : nat)
  : result (list (list (Location fl)) * Z) :=
  let '(data, total_stop_time) := acc in
  let index := Start routing vehicle_id in
  do route <- route_loop fuel index [];
  let route := route ++ [start_point] in
  let num_stops := Z.of_nat (length route) - 2 in
  let total_stop_time := total_stop_time + num_stops * 60 in
  Ok (data ++ [route], total_stop_time).
End Extraction.

Definition warning_message : string := "避難所を選択してください。".

(** [solve_vrp(start_point, shelters, num_vehicles)].  [shelters] is the
    frame's rows reduced to their (Latitude, Longitude) pairs.  The result
    is the session state after the call, the messages shown, and how the
    call ended ([Ok tt]: it returned, always with [None]).  The routes are
    appended to the session's list one vehicle at a time; the model
    collects them in the loop state and stores the list when the loop is
    through.  The loop body raises nothing, and a run cut off for lack of
    fuel has no final state: the state given for it is the one at the
    loop's entry. *)
Definition solve_vrp (fuel : nat) (st : session_state (float fl))
    (start_point : Location fl) (shelters : list (Location fl))
    (num_vehicles : nat)
  : session_state (float fl) * list event * result unit :=
  match shelters with
  | [] => (st, [st_warning warning_message], Ok tt)
  | _ :: _ =>
    let locations := [start_point] ++ shelters in
    let num_locations := length locations in
    match build_distance_matrix locations with
    | Raise e => (st, [], Raise e)
    | OutOfFuel => (st, [], OutOfFuel)
    | Ok distance_matrix =>
      let manager := {| num_nodes := num_locations;
                        manager_vehicles := num_vehicles; depot := 0 |} in
      let routing := new_RoutingModel manager in
      let distance_callback (from_index to_index : nat) : Z :=
        let from_node := IndexToNode manager from_index in
        let to_node := IndexToNode manager to_index in
        getitem distance_matrix from_node to_node in
      let '(routing, transit_callback_index) :=
        RegisterTransitCallback routing distance_callback in
      let routing := SetArcCostEvaluatorOfAllVehicles routing transit_callback_index in
      let routing :=
        foldl (fun routing vehicle_id => SetFixedCostOfAllVehicles routing 1000)
              routing (range num_vehicles) in
      let search_parameters :=
        {| first_solution_strategy := PATH_CHEAPEST_ARC;
           local_search_metaheuristic := GUIDED_LOCAL_SEARCH;
           time_limit_seconds := 30 |} in
      match SolveWithParameters routing search_parameters with
      | None => (st, [], Ok tt)
      | Some solution =>
        let total_distance := int_truediv fl (ObjectiveValue solution) 1000 in
        let total_stop_time := 0 in
        let st := {| route_data := []; route_distance := route_distance st;
                     route_time := route_time st |} in
        match for_each (range num_vehicles)
                (vehicle_body locations start_point manager routing solution fuel)
                (route_data st, total_stop_time) with
        | Raise e => (st, [], Raise e)
        | OutOfFuel => (st, [], OutOfFuel)
        | Ok (data, total_stop_time) =>
          let st := {| route_data := data; route_distance := Some total_distance;
                       route_time := route_time st |} in
          let travel_time := round_ndigits fl (fdiv fl total_distance (lit_0_667 fl)) 2 in
          let st := {| route_data := route_data st;
                       route_distance := route_distance st;
                       route_time := Some (fadd_int fl travel_time total_stop_time) |} in
          (st, [], Ok tt)
        end
      end
    end
  end.
End SolveVrp.

(** ** IEEE binary64 as the floating point of the script

    Python floats are binary64 with round-to-nearest-even, which is what the
    kernel's primitive floats compute.  The point distance is the planar
    Euclidean one.  Int operands are converted with correct rounding, so the
    mixed operations agree with Python's for ints below [2^53] in size; the
    two-digit rounding takes the decimal nearest to the exact binary value
    (ties to even) and then the double nearest to that decimal, as CPython
    does, and agrees with it while the scaled value stays below [2^53]. *)
Module Binary64.
Definition of_int (z : Z) : PrimFloat.float :=
  SF2Prim (binary_normalize prec emax z 0 false).

Definition distance (a b : PrimFloat.float * PrimFloat.float) : PrimFloat.float :=
  let dx := (a.1 - b.1)%float in
  let dy := (a.2 - b.2)%float in
  PrimFloat.sqrt (dx * dx + dy * dy)%float.

Definition to_int (x : PrimFloat.float) : result Z :=
  match Prim2SF x with
  | S754_zero _ => Ok 0
  | S754_finite s m e =>
      let a := if 0 <=? e then Z.pos m * 2 ^ e else Z.pos m / 2 ^ (- e) in
      Ok (if s then - a else a)
  | S754_infinity _ => Raise OverflowError
  | S754_nan => Raise ValueError
  end.

Definition round_half_even (num den : Z) : Z :=
  let q := num / den in
  let r := num mod den in
  if 2 * r <? den then q
  else if den <? 2 * r then q + 1
  else if Z.even q then q else q + 1.

Definition round_nd (x : PrimFloat.float) (ndigits : Z) : PrimFloat.float :=
  match Prim2SF x with
  | S754_finite s m e =>
      if 0 <=? e then x
      else
        let scale := 10 ^ ndigits in
        let q := round_half_even (Z.pos m * scale) (2 ^ (- e)) in
        let y := (of_int q / of_int scale)%float in
        if s then (- y)%float else y
  | _ => x
  end.

Definition ops : FloatOps := {|
  float := PrimFloat.float;
  point_distance := distance;
  fmul_int := fun x k => (x * of_int k)%float;
  int_of_float := to_int;
  int_truediv := fun i k => (of_int i / of_int k)%float;
  fdiv := PrimFloat.div;
  round_ndigits := round_nd;
  fadd_int := fun x k => (x + of_int k)%float;
  lit_0_667 := 0x1.55810624dd2f2p-1%float   (* the double nearest to 0.667 *)
|}.
End Binary64.

(** An [n] by [n] table. *)
Definition square (n : nat) (m : matrix) : Prop :=
  length m = n /\ Forall (fun row => length row = n) m.

(** What line 132 leaves in an off-diagonal cell. *)
Definition cell_filled {fl : FloatOps} (locations : list (Location fl))
    (m : matrix) (i j : nat) : Prop :=
  exists a b, locations !! i = Some a /\ locations !! j = Some b /\
    scaled_distance a b = Ok (getitem m i j) /\ fits_int64 (getitem m i j) = true.

(** The state of the table while the loops run: the diagonal is untouched and
    the cells named by [done] are filled. *)
Definition filling {fl : FloatOps} (locations : list (Location fl))
    (done : nat -> nat -> Prop) (m : matrix) : Prop :=
  square (length locations) m /\
  (forall i, getitem m i i = 0) /\
  (forall i j, (j < length locations)%nat -> i ≠ j -> done i j ->
     cell_filled locations m i j).

(** The chain of successors from an index to the first end index, as a
    relation: [chain routing solution i p e] when [p] lists the indices from
    [i] on that are not end indices and [e] is the end index reached. *)
Inductive chain (routing : RoutingModel) (solution : Assignment)
  : nat -> list nat -> nat -> Prop :=
  | chain_end i :
      IsEnd routing i = true -> chain routing solution i [] i
  | chain_step i p e :
      IsEnd routing i = false ->
      chain routing solution (NextValue solution i) p e ->
      chain routing solution i (i :: p) e.

(** The routing model and the search parameters as lines 135-153 set them
    up, named so that statements can mention what the solver was given. *)
Definition routing_for (distance_matrix : matrix) (num_locations num_vehicles : nat)
  : RoutingModel :=
  let manager := {| num_nodes := num_locations;
                    manager_vehicles := num_vehicles; depot := 0 |} in
  let routing := new_RoutingModel manager in
  let distance_callback (from_index to_index : nat) : Z :=
    let from_node := IndexToNode manager from_index in
    let to_node := IndexToNode manager to_index in
    getitem distance_matrix from_node to_node in
  let '(routing, transit_callback_index) :=
    RegisterTransitCallback routing distance_callback in
  let routing := SetArcCostEvaluatorOfAllVehicles routing transit_callback_index in
  foldl (fun routing vehicle_id => SetFixedCostOfAllVehicles routing 1000)
        routing (range num_vehicles).

Definition search_parameters_used : RoutingSearchParameters :=
  {| first_solution_strategy := PATH_CHEAPEST_ARC;
     local_search_metaheuristic := GUIDED_LOCAL_SEARCH;
     time_limit_seconds := 30 |}.

(** The nodes of a vehicle's chain, in visiting order; the first is the
    depot, the rest are the destinations the vehicle visits. *)
Definition vehicle_nodes (routing : RoutingModel) (solution : Assignment)
    (vehicle_id : nat) : list nat :=
  IndexToNode (manager_of routing) <$>
    default [] (fst <$> vehicle_path routing solution vehicle_id).

Definition vehicle_destinations (routing : RoutingModel) (solution : Assignment)
    (vehicle_id : nat) : list nat :=
  tail (vehicle_nodes routing solution vehicle_id).

(** The coordinate route lines 163-171 produce from a vehicle's nodes. *)
Definition route_of_nodes {fl : FloatOps} (locations : list (Location fl))
    (start_point : Location fl) (nodes : list nat) : list (Location fl) :=
  (location_of locations start_point <$> nodes) ++ [start_point].

(** [total_stop_time] as lines 174-175 accumulate it over the routes. *)
Definition stop_time_of_routes {A} (routes : list (list A)) : Z :=
  sum_list_Z ((fun route => (Z.of_nat (length route) - 2) * 60) <$> routes).

(** The state a successful call leaves. *)
Definition solved_state {fl : FloatOps} (locations : list (Location fl))
    (start_point : Location fl) (routing : RoutingModel) (solution : Assignment)
  : session_state (float fl) :=
  let routes := (fun v => route_of_nodes locations start_point
                            (vehicle_nodes routing solution v))
                <$> range (vehicles routing) in
  let total_distance := int_truediv fl (ObjectiveValue solution) 1000 in
  {| route_data := routes;
     route_distance := Some total_distance;
     route_time :=
       Some (fadd_int fl (round_ndigits fl (fdiv fl total_distance (lit_0_667 fl)) 2)
                      (stop_time_of_routes routes)) |}.

(** ** Exact decimals as a second reading of the float interface

    Numbers with five fractional digits, held as their count of 1e-5 units;
    the distance is the Euclidean one rounded down to that unit.  Every
    operation is exact integer arithmetic, so the interface's laws can be
    proved for all arguments. *)
Module FixedPoint.
Definition distance (a b : Z * Z) : Z :=
  Z.sqrt ((a.1 - b.1) ^ 2 + (a.2 - b.2) ^ 2).

Definition ops : FloatOps := {|
  float := Z;
  point_distance := distance;
  fmul_int := fun x k => x * k;
  int_of_float := fun x => Ok (x ÷ 100000);
  int_truediv := fun i k => i * 100000 / k;
  fdiv := fun x y => x * 100000 / y;
  round_ndigits := fun x d => let u := 10 ^ (5 - d) in (2 * x + u) / (2 * u) * u;
  fadd_int := fun x k => x + k * 100000;
  lit_0_667 := 66700
|}.
End FixedPoint.

(** ** What the claims speak about *)

(** A call reports a failure when it raises or shows a message. *)
Definition reports_failure {fl : FloatOps}
    (outcome : session_state (float fl) * list event * result unit) : Prop :=
  (exists e, outcome.2 = Raise e) \/ outcome.1.2 <> [].

(** A route that holds the depot twice and nothing else has two entries. *)
Definition trivial_routes {A} (routes : list (list A)) : nat :=
  length (filter (fun route => length route = 2%nat) routes).

(** A solver that answers the same whatever it is asked. *)
Definition constant_solver (answer : option Assignment)
  : RoutingModel -> RoutingSearchParameters -> option Assignment :=
  fun _ _ => answer.

(** *** Sample runs on binary64 *)

Definition fresh_session : session_state PrimFloat.float :=
  @Build_session_state PrimFloat.float [] None None.

(** One destination, one vehicle: origin (0,0), destination (0,1). *)
Module OneStop.
Definition origin : Location Binary64.ops := (0%float, 0%float).
Definition destinations : list (Location Binary64.ops) := [(0%float, 1%float)].
Definition distance_matrix : matrix := [[0; 100000]; [100000; 0]].
Definition routing : RoutingModel := routing_for distance_matrix 2 1.
(** The only assignment the model allows: 0 -> 1 -> end. *)
Definition solution : Assignment :=
  {| ObjectiveValue := 201000; NextValue := fun i => Datatypes.S i |}.
Definition solved : session_state PrimFloat.float :=
  @Build_session_state PrimFloat.float
    [[(0%float, 0%float); (0%float, 1%float); (0%float, 0%float)]]
    (Some 201%float)
    (Some (Binary64.round_nd (201 / 0x1.55810624dd2f2p-1)%float 2 + 60)%float).
End OneStop.

(** Three destinations, five vehicles: origin (0,0), destinations (0,1),
    (1,0), (1,1).  Indices 0-3 are the nodes, 4-7 the starts of vehicles 1-4,
    8-12 the ends. *)
Module ThreeStops.
Definition origin : Location Binary64.ops := (0%float, 0%float).
Definition destinations : list (Location Binary64.ops) :=
  [(0%float, 1%float); (1%float, 0%float); (1%float, 1%float)].
Definition distance_matrix : matrix :=
  [[0; 100000; 100000; 141421];
   [100000; 0; 141421; 100000];
   [100000; 141421; 0; 100000];
   [141421; 100000; 100000; 0]].
Definition routing : RoutingModel := routing_for distance_matrix 4 5.
(** Vehicle 0 drives the square 0 -> 1 -> 3 -> 2 -> end; the other four
    vehicles go from their start straight to their end. *)
Definition one_tour : Assignment :=
  {| ObjectiveValue := 401000;
     NextValue := fun i =>
       match i with
       | 0 => 1 | 1 => 3 | 3 => 2 | 2 => 8
       | _ => i + 5
       end%nat |}.
End ThreeStops.

(** Destination visits as lines 173-175 count them: per route its length
    less the two depot entries. *)
Definition visit_count {A} (routes : list (list A)) : Z :=
  sum_list_Z ((fun route => Z.of_nat (length route) - 2) <$> routes).

(** The arc costs along all the vehicles' chains: what the vehicles drive. *)
Definition traversed_cost (routing : RoutingModel) (solution : Assignment) : Z :=
  sum_list_Z
    ((fun v => path_arc_cost routing solution
                 (default [] (fst <$> vehicle_path routing solution v)))
     <$> range (vehicles routing)).


(** ** The page around [solve_vrp]

    The script runs top to bottom at every interaction.  What a widget
    returns in a run is an input of that run; what the run draws and shows is
    its output. *)

(** *** Session defaults (lines 13-24)

    [st.session_state] as a dictionary from keys to the values the script
    keeps in it. *)
Inductive session_value (F : Type) : Type :=
  | coords_value (lat lon : F)
  | set_value (names : gset string)
  | int_value (n : Z)
  | none_value
  | float_value (x : F)
  | list_value (routes : list (list (F * F))).
Arguments coords_value {F} lat lon.
Arguments set_value {F} names.
Arguments int_value {F} n.
Arguments none_value {F}.
Arguments float_value {F} x.
Arguments list_value {F} routes.

(** [if key not in st.session_state: st.session_state[key] = v] *)
Definition set_if_absent {F} (key : string) (v : session_value F)
    (ss : gmap string (session_value F)) : gmap string (session_value F) :=
  if decide (is_Some (ss !! key)) then ss else <[key := v]> ss.

Definition session_keys : list string :=
  ["user_coords"; "shelter_selected"; "num_vehicles";
   "route_distance"; "route_time"; "route_data"].

(** Lines 13-24; [default_coords] is the pair (33.85, 132.75). *)
Definition init_session {F} (default_coords : F * F)
    (ss : gmap string (session_value F)) : gmap string (session_value F) :=
  let ss := set_if_absent "user_coords"
              (coords_value default_coords.1 default_coords.2) ss in
  let ss := set_if_absent "shelter_selected" (set_value ∅) ss in
  let ss := set_if_absent "num_vehicles" (int_value 1) ss in
  let ss := set_if_absent "route_distance" none_value ss in
  let ss := set_if_absent "route_time" none_value ss in
  let ss := set_if_absent "route_data" (list_value []) ss in
  ss.

(** *** The shelter sheet and the selection (lines 76-84, 100-112, 184) *)

(** A row of [shelter_data] after line 35.  The municipality and facility
    code columns are carried along and never read. *)
Record shelter_row (F : Type) : Type := {
  municipality : string;
  district : string;        (* 学校区 *)
  shelter_name : string;    (* 避難所 *)
  facility_code : string;
  Latitude : F;
  Longitude : F
}.
Arguments municipality {F} _.
Arguments district {F} _.
Arguments shelter_name {F} _.
Arguments facility_code {F} _.
Arguments Latitude {F} _.
Arguments Longitude {F} _.

(** The body of the checkbox loop, lines 105-112.  [checkbox name value] is
    what [st.checkbox(name, value=value)] returns in this run. *)
Definition checkbox_step (checkbox : string -> bool -> bool)
    (shelter_selected : gset string) (name : string) : gset string :=
  let checked := bool_decide (name ∈ shelter_selected) in
  let new_checked := checkbox name checked in
  if new_checked
  then {[name]} ∪ shelter_selected      (* .add(shelter_name) *)
  else shelter_selected ∖ {[name]}.     (* .discard(shelter_name) *)

(** The loop over the rows of the chosen district, lines 104-112. *)
Definition update_selection {F} (checkbox : string -> bool -> bool)
    (filtered_shelters : list (shelter_row F)) (shelter_selected : gset string)
  : gset string :=
  foldl (checkbox_step checkbox) shelter_selected
        (shelter_name <$> filtered_shelters).

(** [shelter_data[shelter_data['学校区'] == school_district]], line 100 *)
Definition rows_of_district {F} (school_district : string)
    (shelter_data : list (shelter_row F)) : list (shelter_row F) :=
  filter (fun row => district row = school_district) shelter_data.

(** [shelter_data[shelter_data["避難所"].isin(shelter_selected)]], line 184 *)
Definition rows_isin {F} (shelter_selected : gset string)
    (shelter_data : list (shelter_row F)) : list (shelter_row F) :=
  filter (fun row => shelter_name row ∈ shelter_selected) shelter_data.

(** The (Latitude, Longitude) pairs line 124 reads from the rows. *)
Definition coordinates_of {F} (rows : list (shelter_row F)) : list (F * F) :=
  (fun row => (Latitude row, Longitude row)) <$> rows.

Inductive colour : Type := green | blue | red.

Record marker (F : Type) : Type := {
  marker_location : F * F;
  marker_popup : option string;
  marker_colour : colour
}.
Arguments Build_marker {F} _ _ _.
Arguments marker_location {F} _.
Arguments marker_popup {F} _.
Arguments marker_colour {F} _.

(** Lines 77-84: red when the row's name is selected, blue otherwise. *)
Definition shelter_marker {F} (shelter_selected : gset string)
    (row : shelter_row F) : marker F :=
  let color := if decide (shelter_name row ∈ shelter_selected) then red else blue in
  Build_marker (Latitude row, Longitude row) (Some (shelter_name row)) color.

(** *** One run of the script (lines 55-193) *)

(** The session entries the page reads and writes. *)
Record page_state (F : Type) : Type := {
  user_coords : F * F;
  shelter_selected_names : gset string;
  session_num_vehicles : nat;
  outputs : session_state F
}.
Arguments Build_page_state {F} _ _ _ _.
Arguments user_coords {F} _.
Arguments shelter_selected_names {F} _.
Arguments session_num_vehicles {F} _.
Arguments outputs {F} _.

(** What the widgets return in a run. *)
Record widgets (F : Type) : Type := {
  number_input_lat : F -> F;       (* st.number_input("緯度", value=...) *)
  number_input_lon : F -> F;       (* st.number_input("経度", value=...) *)
  button_set_origin : bool;        (* st.button("起点を設定") *)
  last_clicked : option (F * F);   (* map_click["last_clicked"]: lat, lng *)
  selectbox_district : string;     (* st.selectbox(...) *)
  checkbox : string -> bool -> bool;
  slider_vehicles : nat;           (* st.slider("巡回車両の数", 1, 25, 1) *)
  button_run : bool                (* st.button("巡回計画を実行") *)
}.
Arguments number_input_lat {F} _ _.
Arguments number_input_lon {F} _ _.
Arguments button_set_origin {F} _.
Arguments last_clicked {F} _.
Arguments selectbox_district {F} _.
Arguments checkbox {F} _ _ _.
Arguments slider_vehicles {F} _.
Arguments button_run {F} _.

(** Messages of the page: the two origin confirmations and what
    [solve_vrp] shows. *)
Inductive page_event (F : Type) : Type :=
  | origin_set (lat lon : F)        (* line 62 *)
  | origin_clicked (lat lng : F)    (* line 90 *)
  | solve_event (e : event).
Arguments origin_set {F} lat lon.
Arguments origin_clicked {F} lat lng.
Arguments solve_event {F} e.

(** What the last lines put on the page: the map with its markers
    (lines 66-84) and route lines (187-189), and the two metrics. *)
Record page_view (F : Type) : Type := {
  map_location : F * F;
  map_markers : list (marker F);
  map_polylines : list (list (F * F));
  metric_distance : option F;
  metric_time : option F
}.
Arguments Build_page_view {F} _ _ _ _ _.
Arguments map_location {F} _.
Arguments map_markers {F} _.
Arguments map_polylines {F} _.
Arguments metric_distance {F} _.
Arguments metric_time {F} _.

Section Page.
Context {fl : FloatOps}.
Variable SolveWithParameters :
  RoutingModel -> RoutingSearchParameters -> option Assignment.
Variable shelter_data : list (shelter_row (float fl)).

(** The origin after lines 57-62. *)
Definition origin_after_button (w : widgets (float fl))
    (ps : page_state (float fl)) : Location fl :=
  let lat_input := number_input_lat w (user_coords ps).1 in
  let lon_input := number_input_lon w (user_coords ps).2 in
  if button_set_origin w then (lat_input, lon_input) else user_coords ps.

(** The origin after lines 88-90. *)
Definition origin_after_click (w : widgets (float fl))
    (ps : page_state (float fl)) : Location fl :=
  match last_clicked w with
  | Some (lat, lng) => (lat, lng)
  | None => origin_after_button w ps
  end.

(** The selection after the checkbox loop. *)
Definition selection_after_checkboxes (w : widgets (float fl))
    (ps : page_state (float fl)) : gset string :=
  let school_district := selectbox_district w in
  let filtered_shelters := rows_of_district school_district shelter_data in
  update_selection (checkbox w) filtered_shelters (shelter_selected_names ps).

(** The map as lines 66-84 build it. *)
Definition markers_drawn (w : widgets (float fl))
    (ps : page_state (float fl)) : list (marker (float fl)) :=
  Build_marker (origin_after_button w ps) (Some "起点") green
  :: (shelter_marker (shelter_selected_names ps) <$> shelter_data).

(** Lines 55-193.  The result is the session after the run, the messages,
    the final rendering (none when [solve_vrp] raised, which ends the run)
    and how the run ended.  Failures inside streamlit and folium themselves
    (a checkbox label shown twice, a marker without coordinates) are not part
    of the model. *)
Definition script_run (fuel : nat) (w : widgets (float fl))
    (ps : page_state (float fl))
  : page_state (float fl) * list (page_event (float fl))
    * option (page_view (float fl)) * result unit :=
  let lat_input := number_input_lat w (user_coords ps).1 in
  let lon_input := number_input_lon w (user_coords ps).2 in
  let events1 :=
    if button_set_origin w then [origin_set lat_input lon_input] else [] in
  let coords := origin_after_button w ps in
  let map_location := coords in
  let markers := markers_drawn w ps in
  let events2 :=
    match last_clicked w with
    | Some (lat, lng) => [origin_clicked lat lng]
    | None => []
    end in
  let coords := origin_after_click w ps in
  let selected := selection_after_checkboxes w ps in
  let vehicles := slider_vehicles w in
  let '(outs, solve_events, r) :=
    if button_run w then
      solve_vrp SolveWithParameters fuel (outputs ps) coords
        (coordinates_of (rows_isin selected shelter_data)) vehicles
    else (outputs ps, [], Ok tt) in
  let ps' := Build_page_state coords selected vehicles outs in
  let events := events1 ++ events2 ++ (solve_event <$> solve_events) in
  match r with
  | Ok _ =>
      (ps', events,
       Some (Build_page_view map_location markers (route_data outs)
               (route_distance outs) (route_time outs)),
       Ok tt)
  | _ => (ps', events, None, r)
  end.
End Page.

(** *** A sample sheet and sample runs of the page *)
Module SamplePage.
Definition row (d n : string) (lat lon : PrimFloat.float)
  : shelter_row PrimFloat.float :=
  {| municipality := "38201"; district := d; shelter_name := n;
     facility_code := "-"; Latitude := lat; Longitude := lon |}.

(** Two districts; the name "hall" occurs in both. *)
Definition sheet : list (shelter_row PrimFloat.float) :=
  [row "north" "hall" 1%float 0%float;
   row "north" "school" 0%float 1%float;
   row "south" "hall" 1%float 1%float].

Definition start_page : page_state PrimFloat.float :=
  Build_page_state (0%float, 0%float) ∅ 1 fresh_session.

(** District "north" is shown, the box named [ticked] is ticked, the other
    boxes are left alone, and the run button is pressed. *)
Definition tick (ticked : string) (click : option (PrimFloat.float * PrimFloat.float))
    (run : bool) : widgets PrimFloat.float :=
  {| number_input_lat := fun value => value;
     number_input_lon := fun value => value;
     button_set_origin := false;
     last_clicked := click;
     selectbox_district := "north";
     checkbox := fun name value => if String.eqb name ticked then true else value;
     slider_vehicles := 1;
     button_run := run |}.
End SamplePage.

(** * Properties *)

(** ** Loops *)

Lemma length_range n : length (range n) = n.
Proof. apply length_seq. Qed.

Lemma for_each_app {A S} (xs ys : list A) (body : S -> A -> result S) (s : S) :
  for_each (xs ++ ys) body s = do s' <- for_each xs body s; for_each ys body s'.
Proof.
  revert s. induction xs as [|x xs IH]; intros s; simpl; [done|].
  destruct (body s x); simpl; auto.
Qed.

(** An invariant indexed by the number of iterations done carries through a
    loop over [range n]. *)
Lemma for_range_invariant {S} (Inv : nat -> S -> Prop) (n : nat)
    (body : S -> nat -> result S) (s0 s : S) :
  Inv 0%nat s0 ->
  (forall k s1 s2, (k < n)%nat -> Inv k s1 -> body s1 k = Ok s2 -> Inv (Datatypes.S k) s2) ->
  for_each (range n) body s0 = Ok s ->
  Inv n s.
Proof.
  intros H0 Hstep. revert s.
  induction n as [|n IH]; intros s Hrun.
  - simpl in Hrun. by injection Hrun as <-.
  - unfold range in *. rewrite seq_S, for_each_app in Hrun. simpl in Hrun.
    destruct (for_each (seq 0 n) body s0) as [s1| |] eqn:E; simpl in Hrun; try done.
    destruct (body s1 n) as [s2| |] eqn:E2; simpl in Hrun; try done.
    inversion Hrun; subst s2.
    apply (Hstep n s1); [lia| |done].
    apply IH; [|done]. intros k a b Hk. apply Hstep. lia.
Qed.

(** ** The distance matrix *)

Lemma square_np_zeros n : square n (np_zeros n).
Proof.
  split; [apply length_replicate|].
  apply Forall_forall. intros row Hrow.
  apply elem_of_replicate in Hrow as [-> _]. apply length_replicate.
Qed.

Lemma getitem_np_zeros n i j : getitem (np_zeros n) i j = 0.
Proof.
  unfold getitem, np_zeros.
  destruct (decide (i < n)%nat) as [Hi|Hi].
  - rewrite lookup_replicate_2 by done. simpl.
    destruct (decide (j < n)%nat) as [Hj|Hj].
    + by rewrite lookup_replicate_2.
    + by rewrite (proj1 (lookup_replicate_None n 0 j)) by lia.
  - by rewrite (proj1 (lookup_replicate_None n _ i)) by lia.
Qed.

Lemma setitem_spec n m i j v m' :
  square n m -> (i < n)%nat -> (j < n)%nat ->
  setitem m i j v = Ok m' ->
  square n m' /\ fits_int64 v = true /\
  forall i' j', getitem m' i' j' = if decide (i' = i /\ j' = j) then v else getitem m i' j'.
Proof.
  intros [Hlen Hrows] Hi Hj. unfold setitem.
  destruct (fits_int64 v) eqn:Hfit; [|done]. intros [= <-].
  destruct (m !! i) as [row|] eqn:Erow; simpl.
  2: { apply lookup_ge_None in Erow. lia. }
  assert (length row = n) as Hrow.
  { rewrite Forall_forall in Hrows. apply Hrows. by eapply list_elem_of_lookup_2. }
  split; [|split; [done|]].
  - split; [by rewrite length_insert|].
    apply Forall_insert; [done|]. by rewrite length_insert.
  - intros i' j'. unfold getitem.
    destruct (decide (i' = i)) as [->|Hne].
    + rewrite list_lookup_insert_eq by lia. simpl.
      destruct (decide (j' = j)) as [->|Hne'].
      * rewrite list_lookup_insert_eq by lia. simpl.
        by rewrite decide_True.
      * rewrite list_lookup_insert_ne by done.
        rewrite decide_False by tauto. by rewrite Erow.
    + rewrite list_lookup_insert_ne by done.
      by rewrite decide_False by tauto.
Qed.

Section MatrixFacts.
Context {fl : FloatOps}.
Variable locations : list (Location fl).
Let n := length locations.

Lemma filling_weaken (done done' : nat -> nat -> Prop) m :
  (forall i j, (j < n)%nat -> done' i j -> done i j) ->
  filling locations done m -> filling locations done' m.
Proof.
  intros Himp (Hsq & Hdiag & Hd). split; [done|]. split; [done|].
  intros i j Hj Hne Hdone. apply Hd; auto.
Qed.

Lemma fill_cell_filling i j (done : nat -> nat -> Prop) m m' :
  (i < n)%nat -> (j < n)%nat ->
  filling locations done m ->
  fill_cell locations i m j = Ok m' ->
  filling locations (fun i' j' => done i' j' \/ (i' = i /\ j' = j)) m'.
Proof.
  intros Hi Hj (Hsq & Hdiag & Hdone). unfold fill_cell.
  destruct (decide (i ≠ j)) as [Hne|Heq].
  - unfold list_getitem.
    destruct (locations !! i) as [a|] eqn:Ea; simpl; [|done].
    destruct (locations !! j) as [b|] eqn:Eb; simpl; [|done].
    destruct (scaled_distance a b) as [v| |] eqn:Ev; simpl; try done.
    intros Hset.
    destruct (setitem_spec _ _ _ _ _ _ Hsq Hi Hj Hset) as (Hsq' & Hfit & Hget).
    split; [done|]. split.
    + intros i'. rewrite Hget. rewrite decide_False by lia. apply Hdiag.
    + intros i' j' Hj' Hne' Hd. unfold cell_filled. rewrite Hget.
      destruct (decide (i' = i /\ j' = j)) as [[-> ->]|Hother].
      * by exists a, b.
      * destruct Hd as [Hd|Hd]; [|done]. by apply Hdone.
  - intros [= <-]. split; [done|]. split; [done|].
    intros i' j' Hj' Hne' [Hd|[-> ->]]; [by apply Hdone|].
    destruct Heq. done.
Qed.

Lemma fill_row_filling i m m' :
  (i < n)%nat ->
  filling locations (fun i' _ => (i' < i)%nat) m ->
  fill_row locations n m i = Ok m' ->
  filling locations (fun i' _ => (i' < Datatypes.S i)%nat) m'.
Proof.
  intros Hi Hm Hrun. unfold fill_row in Hrun.
  eapply filling_weaken; cycle 1.
  - eapply (for_range_invariant
             (fun k m => filling locations
                           (fun i' j' => (i' < i)%nat \/ (i' = i /\ (j' < k)%nat)) m)).
    + eapply filling_weaken; [|exact Hm]. intros ? ? _ [?|[_ ?]]; [done|lia].
    + intros k m1 m2 Hk Hinv Hcell.
      eapply filling_weaken;
        [|eapply fill_cell_filling; [exact Hi|exact Hk|exact Hinv|exact Hcell]].
      simpl. intros i' j' _ [?|[-> Hlt]]; [tauto|].
      destruct (decide (j' = k)); [tauto|left; right; split; [done|lia]].
    + exact Hrun.
  - simpl. intros i' j' Hj' Hlt. destruct (decide (i' = i)) as [->|]; [|left; lia].
    right. done.
Qed.

(** After the loops the table is square, its diagonal is as [np.zeros] left
    it and every other cell holds the scaled distance of its two locations. *)
Lemma build_distance_matrix_filling m :
  build_distance_matrix locations = Ok m ->
  filling locations (fun i _ => (i < n)%nat) m.
Proof.
  intros Hrun. unfold build_distance_matrix in Hrun. fold n in Hrun.
  eapply (for_range_invariant
           (fun k m => filling locations (fun i' _ => (i' < k)%nat) m)); [| |exact Hrun].
  - split; [apply square_np_zeros|]. split; [intros; apply getitem_np_zeros|].
    intros; lia.
  - intros k m1 m2 Hk Hinv Hrow. by eapply fill_row_filling.
Qed.
End MatrixFacts.

(** ** Chains of successors *)

Section Chains.
Variables (routing : RoutingModel) (solution : Assignment).
Local Abbreviation next := (NextValue solution).
Local Abbreviation chain := (chain routing solution).

Lemma walk_chain fuel i p e :
  walk routing solution fuel i = Some (p, e) -> chain i p e.
Proof.
  revert i p e. induction fuel as [|fuel IH]; intros i p e; simpl; [done|].
  destruct (IsEnd routing i) eqn:Hend.
  - intros [= <- <-]. by constructor.
  - destruct (walk routing solution fuel (next i)) as [[p' e']|] eqn:Hw; simpl; [|done].
    intros [= <- <-]. constructor; auto.
Qed.

Lemma chain_walk i p e fuel :
  chain i p e -> (length p < fuel)%nat ->
  walk routing solution fuel i = Some (p, e).
Proof.
  intros Hc. revert fuel. induction Hc as [i Hend|i p e Hend Hc IH]; intros fuel Hlen.
  - destruct fuel; [lia|]. simpl. by rewrite Hend.
  - destruct fuel; [simpl in Hlen; lia|]. simpl. rewrite Hend.
    rewrite IH by (simpl in Hlen; lia). done.
Qed.

Lemma chain_deterministic i p e q e' :
  chain i p e -> chain i q e' -> p = q /\ e = e'.
Proof.
  intros Hc. revert q e'.
  induction Hc as [i Hend|i p e Hend Hc IH]; intros q e' Hq; inversion Hq; subst;
    try congruence; [done|].
  destruct (IH _ _ H0) as [-> ->]. done.
Qed.

Lemma chain_head i p e : chain i p e -> hd e p = i.
Proof. by destruct 1. Qed.

Lemma chain_end_is_end i p e : chain i p e -> IsEnd routing e = true.
Proof. induction 1; auto. Qed.

Lemma chain_not_end i p e x : chain i p e -> x ∈ p -> IsEnd routing x = false.
Proof.
  induction 1 as [|i p e Hend Hc IH]; intros Hx.
  - by apply elem_of_nil in Hx.
  - apply elem_of_cons in Hx as [->|Hx]; auto.
Qed.

(** From any index on a chain the rest of the chain is the chain of that
    index. *)
Lemma chain_app i p1 p2 e : chain i (p1 ++ p2) e -> chain (hd e p2) p2 e.
Proof.
  revert i. induction p1 as [|x p1 IH]; intros i Hc; simpl in Hc.
  - by rewrite (chain_head _ _ _ Hc).
  - inversion Hc; subst. eauto.
Qed.

Lemma chain_from_member i p e x :
  chain i p e -> x ∈ p -> exists p1 p2, p = p1 ++ x :: p2 /\ chain x (x :: p2) e.
Proof.
  intros Hc Hx. apply list_elem_of_split in Hx as (p1 & p2 & ->).
  exists p1, p2. split; [done|]. by apply chain_app in Hc.
Qed.

(** The successor of an index on a chain is what follows it on the chain. *)
Lemma chain_successor i p1 x p2 e :
  chain i (p1 ++ x :: p2) e -> next x = hd e p2.
Proof.
  intros Hc. apply chain_app in Hc. simpl in Hc. inversion Hc; subst.
  symmetry. by eapply chain_head.
Qed.

Lemma chain_NoDup i p e : chain i p e -> NoDup p.
Proof.
  induction 1 as [|i p e Hend Hc IH]; constructor; [|done].
  intros Hin.
  destruct (chain_from_member _ _ _ _ Hc Hin) as (p1 & p2 & -> & Hsub).
  assert (chain i (i :: p1 ++ i :: p2) e) as Hfull by (by constructor).
  destruct (chain_deterministic _ _ _ _ _ Hsub Hfull) as [Heq _].
  apply (f_equal length) in Heq. simpl in Heq. rewrite length_app in Heq.
  simpl in Heq. lia.
Qed.

Lemma chain_not_end_inv i p e :
  chain i p e -> IsEnd routing i = false ->
  exists p', p = i :: p' /\ chain (next i) p' e.
Proof. destruct 1; [congruence|eauto]. Qed.

Lemma chain_end_inv i p e :
  chain i p e -> IsEnd routing i = true -> p = [] /\ e = i.
Proof. destruct 1; [done|congruence]. Qed.

Lemma chain_length i p e : chain i p e -> (length p <= Size routing)%nat.
Proof.
  intros Hc.
  assert (p ⊆ range (Size routing)) as Hsub.
  { intros x Hx. apply elem_of_seq.
    pose proof (chain_not_end _ _ _ _ Hc Hx) as Hne.
    unfold IsEnd in Hne. apply bool_decide_eq_false in Hne. lia. }
  pose proof (chain_NoDup _ _ _ Hc) as Hnd.
  pose proof (submseteq_length _ _ (NoDup_submseteq _ _ Hnd Hsub)) as Hlen.
  unfold range in Hlen. by rewrite length_seq in Hlen.
Qed.
End Chains.

(** ** Index layout *)

Section Layout.
Variable routing : RoutingModel.

Lemma IsEnd_false i : IsEnd routing i = false <-> (i < Size routing)%nat.
Proof. unfold IsEnd. rewrite bool_decide_eq_false. lia. Qed.

Lemma IsEnd_true i : IsEnd routing i = true <-> (Size routing <= i)%nat.
Proof. unfold IsEnd. by rewrite bool_decide_eq_true. Qed.

Lemma IsStart_true i :
  IsStart routing i = true <-> exists v, (v < vehicles routing)%nat /\ Start routing v = i.
Proof.
  unfold IsStart. rewrite existsb_exists. split.
  - intros (v & Hv & Heq). apply bool_decide_eq_true in Heq.
    apply in_seq in Hv. exists v. split; [lia|done].
  - intros (v & Hv & Heq). exists v. split; [apply in_seq; lia|].
    by apply bool_decide_eq_true.
Qed.

Lemma IsStart_Start v : (v < vehicles routing)%nat -> IsStart routing (Start routing v) = true.
Proof. intros Hv. apply IsStart_true. eauto. Qed.

Lemma Start_inj v w : Start routing v = Start routing w ->
  (depot (manager_of routing) < num_nodes (manager_of routing))%nat -> v = w.
Proof. unfold Start. intros H Hd. repeat case_decide; lia. Qed.

Lemma Start_not_end v :
  (depot (manager_of routing) < num_nodes (manager_of routing))%nat ->
  (v < vehicles routing)%nat -> IsEnd routing (Start routing v) = false.
Proof.
  intros Hd Hv. apply IsEnd_false. unfold Start, Size, vehicles in *.
  case_decide; lia.
Qed.

(** The lookup [locations[node]] of the extraction loop is in range. *)
Lemma IndexToNode_in_locations {A} (locations : list A) index :
  num_nodes (manager_of routing) = length locations ->
  (depot (manager_of routing) < num_nodes (manager_of routing))%nat ->
  is_Some (locations !! IndexToNode (manager_of routing) index).
Proof.
  intros Hn Hd. apply lookup_lt_is_Some. rewrite <- Hn.
  unfold IndexToNode. case_decide; lia.
Qed.

Lemma IndexToNode_lt index :
  (depot (manager_of routing) < num_nodes (manager_of routing))%nat ->
  (IndexToNode (manager_of routing) index < num_nodes (manager_of routing))%nat.
Proof. intros Hd. unfold IndexToNode. case_decide; lia. Qed.
End Layout.

(** ** Consequences of the routing constraints *)

Section ValidSolution.
Variables (routing : RoutingModel) (solution : Assignment).
Hypothesis Hvalid : valid_solution routing solution.
Hypothesis Hdepot : (depot (manager_of routing) < num_nodes (manager_of routing))%nat.
Local Abbreviation next := (NextValue solution).
Local Abbreviation chain := (chain routing solution).

Lemma next_injective i j :
  (i < Size routing)%nat -> (j < Size routing)%nat -> next i = next j -> i = j.
Proof.
  intros Hi Hj Heq.
  apply (NoDup_lookup _ i j (next i) (next_all_different _ _ Hvalid)).
  - rewrite list_lookup_fmap. unfold range. by rewrite lookup_seq_lt.
  - rewrite list_lookup_fmap. unfold range. rewrite lookup_seq_lt by done.
    simpl. by rewrite Heq.
Qed.

Lemma next_is_not_start i : (i < Size routing)%nat -> IsStart routing (next i) = false.
Proof.
  intros Hi. pose proof (next_not_start _ _ Hvalid) as H.
  rewrite Forall_forall in H. apply H. apply elem_of_seq. lia.
Qed.

Lemma next_below i :
  (i < Size routing)%nat -> (next i < Size routing + vehicles routing)%nat.
Proof.
  intros Hi. pose proof (next_in_range _ _ Hvalid) as H.
  rewrite Forall_forall in H. apply H. apply elem_of_seq. lia.
Qed.

Lemma reaches_an_end i :
  (i < Size routing)%nat -> exists p e, chain i (i :: p) e.
Proof.
  intros Hi. pose proof (no_cycle _ _ Hvalid) as H.
  rewrite Forall_forall in H.
  destruct (H i) as [[p e] Hw]; [apply elem_of_seq; lia|].
  apply walk_chain in Hw.
  destruct (chain_not_end_inv _ _ _ _ _ Hw) as (p' & -> & _); [by apply IsEnd_false|].
  eauto.
Qed.

Lemma vehicle_chain v :
  (v < vehicles routing)%nat ->
  exists p, vehicle_path routing solution v = Some (Start routing v :: p, End routing v)
            /\ chain (Start routing v) (Start routing v :: p) (End routing v).
Proof.
  intros Hv. pose proof (start_to_end _ _ Hvalid) as H.
  rewrite Forall_forall in H. specialize (H v).
  destruct (vehicle_path routing solution v) as [[p e]|] eqn:Hp;
    [|by (discriminate H; apply elem_of_seq; lia)].
  simpl in H. assert (e = End routing v) as ->.
  { assert (Some e = Some (End routing v)) as [= ->]; [|done].
    apply H. apply elem_of_seq. lia. }
  pose proof (walk_chain _ _ _ _ _ _ Hp) as Hc.
  destruct (chain_not_end_inv _ _ _ _ _ Hc) as (p' & -> & _);
    [by apply Start_not_end|].
  eauto.
Qed.

(** Two chains into the same end index: one is the tail of the other,
    because successors are pairwise different. *)
Lemma chain_suffix i p e :
  chain i p e -> forall j q, chain j q e -> p `suffix_of` q \/ q `suffix_of` p.
Proof.
  induction 1 as [i Hend|i p e Hend Hc IH]; intros j q Hq.
  - left. apply suffix_nil.
  - destruct (IH j q Hq) as [[k ->]|Hqp]; [|right; by apply suffix_cons_r].
    destruct k as [|y k _] using rev_ind.
    + right. simpl. by apply suffix_cons_r.
    + left. rewrite <- app_assoc in Hq |- *. simpl in *.
      pose proof (chain_successor _ _ _ _ _ _ _ Hq) as Hy.
      rewrite (chain_head _ _ _ _ _ Hc) in Hy.
      assert (y = i) as ->.
      { apply next_injective; [| |done].
        - apply IsEnd_false. eapply chain_not_end; [exact Hq|].
          apply elem_of_app. right. by left.
        - by apply IsEnd_false. }
      by exists k.
Qed.

(** A chain into a vehicle's end index is a tail of that vehicle's chain:
    the vehicle's start has no predecessor. *)
Lemma chain_into_vehicle_end i p v q :
  (v < vehicles routing)%nat ->
  chain i p (End routing v) ->
  chain (Start routing v) q (End routing v) ->
  p `suffix_of` q.
Proof.
  intros Hv Hp Hq.
  destruct (chain_suffix _ _ _ Hp _ _ Hq) as [?|[k ->]]; [done|].
  destruct k as [|y k _] using rev_ind; [done|].
  exfalso. rewrite <- app_assoc in Hp. simpl in Hp.
  pose proof (chain_successor _ _ _ _ _ _ _ Hp) as Hy.
  rewrite (chain_head _ _ _ _ _ Hq) in Hy.
  assert (y < Size routing)%nat as Hylt.
  { apply IsEnd_false. eapply chain_not_end; [exact Hp|].
    apply elem_of_app. right. by left. }
  pose proof (next_is_not_start y Hylt) as Hns.
  rewrite Hy, IsStart_Start in Hns; done.
Qed.

Lemma chain_last_successor i p e :
  chain i p e -> p <> [] -> exists x, x ∈ p /\ next x = e.
Proof.
  intros Hc Hne. destruct p as [|y p _] using rev_ind; [done|].
  exists y. split; [apply elem_of_app; right; by left|].
  by rewrite (chain_successor _ _ _ _ _ _ _ Hc).
Qed.

(** Chains must end somewhere, so there is a vehicle. *)
Lemma valid_has_vehicle i : (i < Size routing)%nat -> (0 < vehicles routing)%nat.
Proof.
  intros Hi. destruct (reaches_an_end i Hi) as (p & e & Hc).
  destruct (chain_last_successor _ _ _ Hc) as (x & Hx & Hnx); [done|].
  pose proof (chain_end_is_end _ _ _ _ _ Hc) as He. apply IsEnd_true in He.
  assert (x < Size routing)%nat as Hxlt.
  { apply IsEnd_false. by eapply chain_not_end. }
  pose proof (next_below x Hxlt). lia.
Qed.

(** Coverage: every index that has a successor is on some vehicle's chain. *)
Lemma on_some_vehicle_chain i :
  (i < Size routing)%nat ->
  exists v p, (v < vehicles routing)%nat /\
    vehicle_path routing solution v = Some (p, End routing v) /\ i ∈ p.
Proof.
  intros Hi. destruct (reaches_an_end i Hi) as (p & e & Hc).
  destruct (chain_last_successor _ _ _ Hc) as (x & Hx & Hnx); [done|].
  pose proof (chain_end_is_end _ _ _ _ _ Hc) as He. apply IsEnd_true in He.
  assert (x < Size routing)%nat as Hxlt.
  { apply IsEnd_false. by eapply chain_not_end. }
  pose proof (next_below x Hxlt) as Hb. rewrite Hnx in Hb.
  pose (v := (e - Size routing)%nat).
  assert (v < vehicles routing)%nat as Hv by (unfold v; lia).
  assert (e = End routing v) as Hev by (unfold End, v; lia).
  clearbody v. rewrite Hev in Hc.
  destruct (vehicle_chain v Hv) as (q & Hpath & Hq).
  exists v, (Start routing v :: q). split; [done|]. split; [done|].
  destruct (chain_into_vehicle_end _ _ _ _ Hv Hc Hq) as [k Hk].
  rewrite Hk. apply elem_of_app. right. by left.
Qed.

(** Uniqueness: an index is on one vehicle's chain only. *)
Lemma on_one_vehicle_chain i v w p q :
  vehicle_path routing solution v = Some (p, End routing v) ->
  vehicle_path routing solution w = Some (q, End routing w) ->
  i ∈ p -> i ∈ q -> v = w.
Proof.
  intros Hp Hq Hip Hiq.
  apply walk_chain in Hp, Hq.
  destruct (chain_from_member _ _ _ _ _ _ Hp Hip) as (? & p2 & _ & Hc1).
  destruct (chain_from_member _ _ _ _ _ _ Hq Hiq) as (? & q2 & _ & Hc2).
  destruct (chain_deterministic _ _ _ _ _ _ _ Hc1 Hc2) as [_ He].
  unfold End in He. lia.
Qed.
End ValidSolution.

(** ** From the assignment to the stored routes *)

Lemma stop_time_of_routes_cons {A} (route : list A) routes :
  stop_time_of_routes (route :: routes)
  = (Z.of_nat (length route) - 2) * 60 + stop_time_of_routes routes.
Proof. reflexivity. Qed.

Section ExtractionFacts.
Context {fl : FloatOps}.
Variables (locations : list (Location fl)) (start_point : Location fl)
          (routing : RoutingModel) (solution : Assignment).
Local Abbreviation manager := (manager_of routing).

Lemma route_loop_chain fuel i p e route :
  chain routing solution i p e -> (length p < fuel)%nat ->
  route_loop locations start_point manager routing solution fuel i route
  = Ok (route ++ (location_of locations start_point <$> (IndexToNode manager <$> p))).
Proof.
  intros Hc. revert fuel route.
  induction Hc as [i Hend|i p e Hend Hc IH]; intros fuel route Hlen.
  - destruct fuel; [lia|]. simpl. rewrite Hend. by rewrite app_nil_r.
  - destruct fuel; [simpl in Hlen; lia|]. simpl. rewrite Hend.
    rewrite IH by (simpl in Hlen; lia).
    by rewrite <- app_assoc.
Qed.

(** The loop, when it stops, has walked a chain. *)
Lemma route_loop_Ok fuel i route r :
  route_loop locations start_point manager routing solution fuel i route = Ok r ->
  exists p e, chain routing solution i p e /\
    r = route ++ (location_of locations start_point <$> (IndexToNode manager <$> p)).
Proof.
  revert i route. induction fuel as [|fuel IH]; intros i route; simpl; [done|].
  destruct (IsEnd routing i) eqn:Hend.
  - intros [= <-]. exists [], i. split; [by constructor|]. by rewrite app_nil_r.
  - intros Hrun. destruct (IH _ _ Hrun) as (p & e & Hc & ->).
    exists (i :: p), e. split; [by constructor|]. by rewrite <- app_assoc.
Qed.

Lemma vehicle_loop_Ok fuel (vs : list nat) (nodes : nat -> list nat) data t :
  (forall v, v ∈ vs ->
     route_loop locations start_point manager routing solution fuel
       (Start routing v) []
     = Ok (location_of locations start_point <$> nodes v)) ->
  let routes := (fun v => route_of_nodes locations start_point (nodes v)) <$> vs in
  for_each vs (vehicle_body locations start_point manager routing solution fuel)
    (data, t)
  = Ok (data ++ routes, t + stop_time_of_routes routes).
Proof.
  revert data t. induction vs as [|v vs IH]; intros data t Hloop; simpl.
  - unfold stop_time_of_routes. simpl. by rewrite app_nil_r, Z.add_0_r.
  - rewrite Hloop by (by left). simpl.
    rewrite IH by (intros; apply Hloop; by right).
    f_equal. f_equal.
    + by rewrite <- app_assoc.
    + rewrite stop_time_of_routes_cons. symmetry. apply Z.add_assoc.
Qed.
End ExtractionFacts.

(** ** The routing model the script builds *)

Lemma foldl_SetFixedCost (routing : RoutingModel) (l : list nat) :
  let routing' := foldl (fun r _ => SetFixedCostOfAllVehicles r 1000) routing l in
  manager_of routing' = manager_of routing /\
  transit_callbacks routing' = transit_callbacks routing /\
  arc_cost_evaluator routing' = arc_cost_evaluator routing /\
  fixed_cost routing' = match l with [] => fixed_cost routing | _ => 1000 end.
Proof.
  revert routing. induction l as [|x l IH]; intros routing; simpl; [done|].
  destruct (IH (SetFixedCostOfAllVehicles routing 1000)) as (H1 & H2 & H3 & H4).
  simpl in *. rewrite H1, H2, H3, H4. by destruct l.
Qed.

Section RoutingFor.
Variables (distance_matrix : matrix) (num_locations num_vehicles : nat).
Local Abbreviation routing := (routing_for distance_matrix num_locations num_vehicles).

Lemma manager_of_routing_for :
  manager_of routing = {| num_nodes := num_locations;
                          manager_vehicles := num_vehicles; depot := 0 |}.
Proof. unfold routing_for. simpl. apply foldl_SetFixedCost. Qed.

Lemma vehicles_routing_for : vehicles routing = num_vehicles.
Proof. unfold vehicles. by rewrite manager_of_routing_for. Qed.

Lemma Size_routing_for : Size routing = (num_locations + num_vehicles - 1)%nat.
Proof. unfold Size, vehicles. by rewrite manager_of_routing_for. Qed.

Lemma Start_routing_for v :
  Start routing v = if decide (v = 0%nat) then 0%nat else (num_locations + v - 1)%nat.
Proof. unfold Start. by rewrite manager_of_routing_for. Qed.

Lemma IndexToNode_routing_for index :
  IndexToNode (manager_of routing) index
  = if decide (index < num_locations)%nat then index else 0%nat.
Proof. by rewrite manager_of_routing_for. Qed.

Lemma fixed_cost_routing_for :
  (0 < num_vehicles)%nat -> fixed_cost routing = 1000.
Proof.
  intros Hv. unfold routing_for. simpl.
  match goal with |- fixed_cost (foldl _ ?r ?l) = _ =>
    destruct (foldl_SetFixedCost r l) as (_ & _ & _ & ->) end.
  destruct num_vehicles; [lia|]. done.
Qed.

(** The arc evaluator is [distance_callback]. *)
Lemma arc_cost_routing_for from_index to_index :
  arc_cost routing from_index to_index
  = getitem distance_matrix
      (IndexToNode (manager_of routing) from_index)
      (IndexToNode (manager_of routing) to_index).
Proof.
  rewrite manager_of_routing_for. unfold arc_cost, routing_for. simpl.
  match goal with |- context [foldl ?f ?r ?l] =>
    destruct (foldl_SetFixedCost r l) as (_ & -> & -> & _) end.
  done.
Qed.
End RoutingFor.

(** ** The successful run *)

Section SolveVrpFacts.
Context {fl : FloatOps}.
Variable SolveWithParameters :
  RoutingModel -> RoutingSearchParameters -> option Assignment.

Lemma solve_vrp_unfold fuel st start_point shelter shelters num_vehicles :
  solve_vrp SolveWithParameters fuel st start_point (shelter :: shelters) num_vehicles
  = let locations := start_point :: shelter :: shelters in
    match build_distance_matrix locations with
    | Raise e => (st, [], Raise e)
    | OutOfFuel => (st, [], OutOfFuel)
    | Ok distance_matrix =>
      let routing := routing_for distance_matrix (length locations) num_vehicles in
      match SolveWithParameters routing search_parameters_used with
      | None => (st, [], Ok tt)
      | Some solution =>
        let total_distance := int_truediv fl (ObjectiveValue solution) 1000 in
        match for_each (range num_vehicles)
                (vehicle_body locations start_point
                   {| num_nodes := length locations;
                      manager_vehicles := num_vehicles; depot := 0 |}
                   routing solution fuel) ([], 0) with
        | Raise e =>
            ({| route_data := []; route_distance := route_distance st;
                route_time := route_time st |}, [], Raise e)
        | OutOfFuel =>
            ({| route_data := []; route_distance := route_distance st;
                route_time := route_time st |}, [], OutOfFuel)
        | Ok (data, total_stop_time) =>
            ({| route_data := data; route_distance := Some total_distance;
                route_time :=
                  Some (fadd_int fl
                          (round_ndigits fl (fdiv fl total_distance (lit_0_667 fl)) 2)
                          total_stop_time) |}, [], Ok tt)
        end
      end
    end.
Proof.
  unfold solve_vrp. simpl.
  destruct (build_distance_matrix _) as [m| |]; reflexivity.
Qed.

Lemma solve_vrp_solved fuel (st : session_state (float fl)) (start_point : Location fl)
    (shelters : list (Location fl)) num_vehicles m solution :
  shelters <> [] ->
  let locations := start_point :: shelters in
  let routing := routing_for m (length locations) num_vehicles in
  build_distance_matrix locations = Ok m ->
  SolveWithParameters routing search_parameters_used = Some solution ->
  valid_solution routing solution ->
  (Size routing < fuel)%nat ->
  solve_vrp SolveWithParameters fuel st start_point shelters num_vehicles
  = (solved_state locations start_point routing solution, [], Ok tt).
Proof.
  intros Hne locations routing Hm Hsolve Hvalid Hfuel.
  destruct shelters as [|shelter shelters]; [done|].
  rewrite solve_vrp_unfold. cbv zeta. fold locations. rewrite Hm.
  fold routing. rewrite Hsolve.
  assert (manager_of routing = {| num_nodes := length locations;
            manager_vehicles := num_vehicles; depot := 0 |}) as Hmgr
    by apply manager_of_routing_for.
  rewrite <- Hmgr.
  assert (vehicles routing = num_vehicles) as HV by apply vehicles_routing_for.
  assert (depot (manager_of routing) < num_nodes (manager_of routing))%nat as Hdepot.
  { rewrite Hmgr. simpl. lia. }
  rewrite (vehicle_loop_Ok locations start_point routing solution fuel
             (range num_vehicles) (vehicle_nodes routing solution)).
  - unfold solved_state.
    rewrite HV. simpl. by rewrite Z.add_0_l.
  - intros v Hv. apply elem_of_seq in Hv.
    destruct (vehicle_chain routing solution Hvalid Hdepot v) as (p & Hpath & Hc).
    { rewrite HV. lia. }
    rewrite (route_loop_chain _ _ _ _ _ _ _ _ [] Hc).
    + unfold vehicle_nodes. by rewrite Hpath.
    + pose proof (chain_length _ _ _ _ _ Hc). lia.
Qed.
End SolveVrpFacts.

(** ** Destinations across the routes *)

Lemma NoDup_join_fmap {A B} (f : A -> list B) (vs : list A) :
  NoDup vs ->
  (forall v, v ∈ vs -> NoDup (f v)) ->
  (forall v w x, v ∈ vs -> w ∈ vs -> x ∈ f v -> x ∈ f w -> v = w) ->
  NoDup (mjoin (f <$> vs)).
Proof.
  induction vs as [|v vs IH]; intros Hvs Hnd Hdisj; simpl; [constructor|].
  apply NoDup_cons in Hvs as [Hv Hvs].
  apply NoDup_app. split; [apply Hnd; by left|]. split.
  - intros x Hx Hin. apply list_elem_of_join in Hin as (l & Hxl & Hl).
    apply list_elem_of_fmap in Hl as (w & -> & Hw).
    assert (v = w) as -> by (eapply Hdisj; eauto; [by left|by right]).
    done.
  - apply IH; [done| |].
    + intros w Hw. apply Hnd. by right.
    + intros w1 w2 x H1 H2. apply Hdisj; by right.
Qed.

Lemma zeros_and_sum (l : list nat) :
  (length l <= length (filter (fun k => k = 0%nat) l) + sum_list l)%nat.
Proof.
  induction l as [|k l IH]; simpl; [lia|].
  rewrite filter_cons. destruct (decide (k = 0%nat)); simpl; lia.
Qed.

Section Destinations.
Variables (distance_matrix : matrix) (num_locations num_vehicles : nat).
Variable solution : Assignment.
Local Abbreviation routing := (routing_for distance_matrix num_locations num_vehicles).
Hypothesis Hvalid : valid_solution routing solution.
Hypothesis Hlocations : (0 < num_locations)%nat.

Lemma depot_routing_for :
  (depot (manager_of routing) < num_nodes (manager_of routing))%nat.
Proof. rewrite manager_of_routing_for. simpl. lia. Qed.

Lemma IndexToNode_Start v :
  IndexToNode (manager_of routing) (Start routing v) = 0%nat.
Proof.
  rewrite Start_routing_for, manager_of_routing_for. unfold IndexToNode. simpl.
  repeat case_decide; lia.
Qed.

(** An index that is neither a start nor an end is a destination's. *)
Lemma not_start_is_destination x :
  (0 < num_vehicles)%nat ->
  (x < Size routing)%nat -> IsStart routing x = false ->
  (1 <= x < num_locations)%nat.
Proof.
  intros HV Hx Hns. rewrite Size_routing_for in Hx.
  destruct (decide (x = 0%nat)) as [->|Hx0].
  - assert (Start routing 0 = 0%nat) as Hs by (by rewrite Start_routing_for).
    rewrite <- Hs, IsStart_Start in Hns; [done|]. by rewrite vehicles_routing_for.
  - destruct (decide (x < num_locations)%nat) as [?|Hge]; [lia|].
    assert (Start routing (x - num_locations + 1) = x) as Hs.
    { rewrite Start_routing_for. case_decide; lia. }
    rewrite <- Hs, IsStart_Start in Hns; [done|].
    rewrite vehicles_routing_for. lia.
Qed.

Lemma destination_is_not_start x :
  (1 <= x < num_locations)%nat -> forall v, Start routing v <> x.
Proof. intros Hx v. rewrite Start_routing_for. case_decide; lia. Qed.

(** What follows the start on a vehicle's chain are destinations, and the
    vehicle's destination list is that part of the chain. *)
Lemma vehicle_path_destinations v p :
  (v < num_vehicles)%nat ->
  vehicle_path routing solution v = Some (Start routing v :: p, End routing v) ->
  vehicle_nodes routing solution v = 0%nat :: p /\
  vehicle_destinations routing solution v = p /\
  Forall (fun x => 1 <= x < num_locations)%nat p /\ NoDup p.
Proof.
  intros Hv Hpath.
  pose proof (walk_chain _ _ _ _ _ _ Hpath) as Hc.
  assert (Forall (fun x => 1 <= x < num_locations)%nat p) as Hdest.
  { apply Forall_forall. intros x Hx.
    apply list_elem_of_split in Hx as (p1 & p2 & ->).
    assert (exists k y, Start routing v :: p1 = k ++ [y]) as (k & y & Hk).
    { destruct p1 as [|z p1 _] using rev_ind; [by exists [], (Start routing v)|].
      exists (Start routing v :: p1), z. done. }
    assert (Start routing v :: p1 ++ x :: p2 = k ++ y :: x :: p2) as Heq.
    { change (Start routing v :: p1 ++ x :: p2)
        with ((Start routing v :: p1) ++ x :: p2).
      rewrite Hk, <- app_assoc. done. }
    rewrite Heq in Hc.
    pose proof (chain_successor _ _ _ _ _ _ _ Hc) as Hy. simpl in Hy.
    assert (y < Size routing)%nat as Hylt.
    { apply IsEnd_false. eapply chain_not_end; [exact Hc|].
      apply elem_of_app. right. by left. }
    apply not_start_is_destination; [lia| |].
    - apply IsEnd_false. eapply chain_not_end; [exact Hc|].
      apply elem_of_app. right. right. by left.
    - rewrite <- Hy. eapply next_is_not_start; eauto using depot_routing_for. }
  assert (IndexToNode (manager_of routing) <$> p = p) as Hid.
  { clear Hpath Hc. induction Hdest as [|x p Hx _ IH]; [done|].
    rewrite fmap_cons, IH. f_equal.
    rewrite manager_of_routing_for. unfold IndexToNode. simpl.
    case_decide; [done|lia]. }
  assert (vehicle_nodes routing solution v = 0%nat :: p) as Hnodes.
  { unfold vehicle_nodes. rewrite Hpath.
    change (IndexToNode (manager_of routing) <$> (Start routing v :: p) = 0%nat :: p).
    by rewrite fmap_cons, IndexToNode_Start, Hid. }
  split; [done|]. split; [unfold vehicle_destinations; by rewrite Hnodes|].
  split; [done|].
  apply chain_NoDup in Hc. by apply NoDup_cons in Hc as [_ ?].
Qed.

Lemma vehicle_destinations_spec v :
  (v < num_vehicles)%nat ->
  vehicle_nodes routing solution v = 0%nat :: vehicle_destinations routing solution v /\
  vehicle_path routing solution v
    = Some (Start routing v :: vehicle_destinations routing solution v, End routing v) /\
  Forall (fun x => 1 <= x < num_locations)%nat (vehicle_destinations routing solution v) /\
  NoDup (vehicle_destinations routing solution v).
Proof.
  intros Hv.
  destruct (vehicle_chain routing solution Hvalid depot_routing_for v) as (p & Hpath & _).
  { by rewrite vehicles_routing_for. }
  destruct (vehicle_path_destinations v p Hv Hpath) as (Hn & Hd & HF & Hnd).
  rewrite Hd. done.
Qed.

(** Coverage and uniqueness: the destinations of all vehicles together are
    the destination indices, each once. *)
Lemma destinations_permutation :
  mjoin (vehicle_destinations routing solution <$> range num_vehicles)
  ≡ₚ seq 1 (num_locations - 1).
Proof.
  apply NoDup_Permutation.
  - apply NoDup_join_fmap.
    + apply NoDup_seq.
    + intros v Hv. apply elem_of_seq in Hv.
      apply vehicle_destinations_spec. lia.
    + intros v w x Hv Hw Hxv Hxw.
      apply elem_of_seq in Hv, Hw.
      destruct (vehicle_destinations_spec v) as (_ & Hpv & _); [lia|].
      destruct (vehicle_destinations_spec w) as (_ & Hpw & _); [lia|].
      eapply (on_one_vehicle_chain routing solution depot_routing_for x v w);
        eauto; by right.
  - apply NoDup_seq.
  - intros x. rewrite elem_of_seq. split.
    + intros Hx. apply list_elem_of_join in Hx as (l & Hxl & Hl).
      apply list_elem_of_fmap in Hl as (v & -> & Hv). apply elem_of_seq in Hv.
      destruct (vehicle_destinations_spec v) as (_ & _ & HF & _); [lia|].
      rewrite Forall_forall in HF. specialize (HF x Hxl). lia.
    + intros Hx.
      destruct (on_some_vehicle_chain routing solution Hvalid depot_routing_for x)
        as (v & p & Hv & Hpath & Hxp).
      { assert (0 < num_vehicles)%nat as HV.
        { rewrite <- (vehicles_routing_for distance_matrix num_locations).
          eapply (valid_has_vehicle routing solution Hvalid depot_routing_for 0%nat).
          rewrite Size_routing_for. lia. }
        rewrite Size_routing_for. lia. }
      rewrite vehicles_routing_for in Hv.
      destruct (vehicle_destinations_spec v Hv) as (_ & Hpv & _).
      rewrite Hpath in Hpv. injection Hpv as ->.
      apply list_elem_of_join. exists (vehicle_destinations routing solution v).
      split.
      * apply elem_of_cons in Hxp as [Hs|?]; [|done].
        exfalso. eapply (destination_is_not_start x); [lia|]. symmetry. exact Hs.
      * apply list_elem_of_fmap. exists v. split; [done|]. apply elem_of_seq. lia.
Qed.
End Destinations.

(** * The claims *)

(** ** Failing calls *)

Section FailingCalls.
Context {fl : FloatOps}.
Variable SolveWithParameters :
  RoutingModel -> RoutingSearchParameters -> option Assignment.

(** C4.  With no destination the call shows the warning and returns at
    once: whatever the solver, the fuel and the vehicle count, the outcome
    is the warning alone, the stored outputs are as before (no empty
    solution is written), and neither the matrix nor the search is
    entered, since the outcome does not depend on them. *)
Theorem C4_empty_destinations_warn_and_stop fuel (st : session_state (float fl))
    (start_point : Location fl) num_vehicles :
  solve_vrp SolveWithParameters fuel st start_point [] num_vehicles
  = (st, [st_warning warning_message], Ok tt)
  /\ reports_failure
       (solve_vrp SolveWithParameters fuel st start_point [] num_vehicles).
Proof.
  split; [reflexivity|]. right. simpl. discriminate.
Qed.

Lemma solve_vrp_no_solution fuel (st : session_state (float fl))
    (start_point : Location fl) (shelters : list (Location fl)) num_vehicles m :
  shelters <> [] ->
  build_distance_matrix (start_point :: shelters) = Ok m ->
  SolveWithParameters
    (routing_for m (length (start_point :: shelters)) num_vehicles)
    search_parameters_used = None ->
  solve_vrp SolveWithParameters fuel st start_point shelters num_vehicles
  = (st, [], Ok tt).
Proof.
  intros Hne Hm Hnone. destruct shelters as [|shelter shelters]; [done|].
  rewrite solve_vrp_unfold. cbv zeta. rewrite Hm. by rewrite Hnone.
Qed.

(** C7, as the code has it.  When the solver returns no solution the call
    returns normally: nothing is raised, no message is shown, the stored
    outputs stay as they were.  The empty-destination call differs from it
    by its warning only. *)
Theorem C7_no_solution_is_silent fuel (st : session_state (float fl))
    (start_point : Location fl) (shelters : list (Location fl)) num_vehicles m :
  shelters <> [] ->
  build_distance_matrix (start_point :: shelters) = Ok m ->
  SolveWithParameters
    (routing_for m (length (start_point :: shelters)) num_vehicles)
    search_parameters_used = None ->
  solve_vrp SolveWithParameters fuel st start_point shelters num_vehicles
  = (st, [], Ok tt)
  /\ ~ reports_failure
        (solve_vrp SolveWithParameters fuel st start_point shelters num_vehicles)
  /\ solve_vrp SolveWithParameters fuel st start_point shelters num_vehicles
     <> solve_vrp SolveWithParameters fuel st start_point [] num_vehicles.
Proof.
  intros Hne Hm Hnone.
  rewrite (solve_vrp_no_solution fuel st start_point shelters num_vehicles m)
    by done.
  split; [done|]. split.
  - intros [[e He]|Hmsg]; simpl in *; done.
  - simpl. intros [=].
Qed.

(** C10.  A call that finds no destination, or whose solver returns no
    solution, leaves the route list, the distance and the time exactly as
    they were. *)
Theorem C10_failed_solve_keeps_outputs fuel (st : session_state (float fl))
    (start_point : Location fl) (shelters : list (Location fl)) num_vehicles :
  shelters = [] \/
  (exists m, build_distance_matrix (start_point :: shelters) = Ok m /\
     SolveWithParameters
       (routing_for m (length (start_point :: shelters)) num_vehicles)
       search_parameters_used = None) ->
  let st' := (solve_vrp SolveWithParameters fuel st start_point shelters
                num_vehicles).1.1 in
  st' = st /\
  route_data st' = route_data st /\
  route_distance st' = route_distance st /\
  route_time st' = route_time st.
Proof.
  intros Hfail st'.
  assert (st' = st) as ->; [|done].
  unfold st'. destruct Hfail as [->|(m & Hm & Hnone)]; [done|].
  destruct shelters as [|shelter shelters']; [done|].
  by rewrite (solve_vrp_no_solution fuel st start_point (shelter :: shelters')
                num_vehicles m).
Qed.
End FailingCalls.

(** C7, as the spec has it, fails: on one destination with a solver that
    finds nothing, the call neither raises nor shows anything. *)
Lemma C7_counterexample :
  constant_solver None
    (routing_for OneStop.distance_matrix 2 1) search_parameters_used = None
  /\ ~ reports_failure
        (solve_vrp (fl := Binary64.ops) (constant_solver None) 10 fresh_session
           OneStop.origin OneStop.destinations 1).
Proof.
  split; [reflexivity|].
  assert (solve_vrp (fl := Binary64.ops) (constant_solver None) 10 fresh_session
            OneStop.origin OneStop.destinations 1
          = (fresh_session, [], Ok tt)) as -> by (vm_compute; reflexivity).
  intros [[e He]|Hmsg]; simpl in *; done.
Qed.

Lemma C7_witness :
  solve_vrp (fl := Binary64.ops) (constant_solver None) 10 fresh_session
    OneStop.origin OneStop.destinations 1
  = (fresh_session, [], Ok tt)
  /\ ~ reports_failure
        (solve_vrp (fl := Binary64.ops) (constant_solver None) 10 fresh_session
           OneStop.origin OneStop.destinations 1)
  /\ solve_vrp (fl := Binary64.ops) (constant_solver None) 10 fresh_session
       OneStop.origin OneStop.destinations 1
     <> solve_vrp (fl := Binary64.ops) (constant_solver None) 10 fresh_session OneStop.origin [] 1.
Proof.
  apply (C7_no_solution_is_silent (fl := Binary64.ops) (constant_solver None) 10 fresh_session
           OneStop.origin OneStop.destinations 1 OneStop.distance_matrix).
  - discriminate.
  - vm_compute. reflexivity.
  - reflexivity.
Defined.

(** The results of an earlier successful call stay when a later call finds
    no solution. *)
Lemma C10_witness :
  let st' := (solve_vrp (fl := Binary64.ops) (constant_solver None) 10 OneStop.solved
                OneStop.origin OneStop.destinations 1).1.1 in
  st' = OneStop.solved /\
  route_data st' = route_data OneStop.solved /\
  route_distance st' = route_distance OneStop.solved /\
  route_time st' = route_time OneStop.solved.
Proof.
  apply (C10_failed_solve_keeps_outputs (fl := Binary64.ops) (constant_solver None) 10 OneStop.solved
           OneStop.origin OneStop.destinations 1).
  right. exists OneStop.distance_matrix. split.
  - vm_compute. reflexivity.
  - reflexivity.
Defined.

(** ** The distance matrix *)

(** C8.  Given that the point distance is symmetric and that a scaled
    distance, when it converts to an int, is not negative, the table the
    loops build is square with a zero diagonal, symmetric, and without
    negative entries. *)
Theorem C8_distance_matrix_zero_diagonal_symmetric {fl : FloatOps}
    (locations : list (Location fl)) (m : matrix) :
  (forall a b, point_distance fl a b = point_distance fl b a) ->
  (forall (a b : Location fl) z, scaled_distance a b = Ok z -> 0 <= z) ->
  build_distance_matrix locations = Ok m ->
  square (length locations) m /\
  forall i j, (i < length locations)%nat -> (j < length locations)%nat ->
    getitem m i i = 0 /\
    getitem m i j = getitem m j i /\
    0 <= getitem m i j.
Proof.
  intros Hsym Hnonneg Hbuild.
  destruct (build_distance_matrix_filling locations m Hbuild) as (Hsq & Hdiag & Hcells).
  split; [done|]. intros i j Hi Hj. split; [apply Hdiag|].
  destruct (decide (i = j)) as [->|Hne].
  - rewrite Hdiag. done.
  - destruct (Hcells i j Hj Hne Hi) as (a & b & Ha & Hb & Hab & _).
    destruct (Hcells j i Hi (not_eq_sym Hne) Hj) as (b' & a' & Hb' & Ha' & Hba & _).
    rewrite Ha in Ha'. rewrite Hb in Hb'. injection Ha' as <-. injection Hb' as <-.
    split; [|by eapply Hnonneg].
    unfold scaled_distance in Hab, Hba. rewrite (Hsym b a) in Hba.
    rewrite Hab in Hba. by injection Hba.
Qed.

Lemma FixedPoint_distance_symmetric (a b : Location FixedPoint.ops) :
  point_distance FixedPoint.ops a b = point_distance FixedPoint.ops b a.
Proof.
  destruct a as [ax ay], b as [bx b_y]. simpl. unfold FixedPoint.distance. simpl.
  f_equal. lia.
Qed.

Lemma FixedPoint_scaled_distance_nonneg (a b : Location FixedPoint.ops) z :
  scaled_distance a b = Ok z -> 0 <= z.
Proof.
  unfold scaled_distance. simpl. intros [= <-].
  apply Z.quot_pos; [|lia].
  apply Z.mul_nonneg_nonneg; [apply Z.sqrt_nonneg|lia].
Qed.

Lemma C8_witness :
  let locations : list (Location FixedPoint.ops) :=
    [(0, 0); (0, 100000); (100000, 100000)] in
  let m := [[0; 100000; 141421]; [100000; 0; 100000]; [141421; 100000; 0]] in
  square (length locations) m /\
  forall i j, (i < length locations)%nat -> (j < length locations)%nat ->
    getitem m i i = 0 /\
    getitem m i j = getitem m j i /\
    0 <= getitem m i j.
Proof.
  apply (C8_distance_matrix_zero_diagonal_symmetric (fl := FixedPoint.ops)).
  - exact FixedPoint_distance_symmetric.
  - exact FixedPoint_scaled_distance_nonneg.
  - vm_compute. reflexivity.
Defined.

(** ** Successful calls *)

Lemma trivial_routes_of_nodes {fl : FloatOps} (locations : list (Location fl))
    (start_point : Location fl) (dests : nat -> list nat) (vs : list nat) :
  trivial_routes
    ((fun v => route_of_nodes locations start_point (0%nat :: dests v)) <$> vs)
  = length (filter (fun k => k = 0%nat) ((fun v => length (dests v)) <$> vs)).
Proof.
  unfold trivial_routes. induction vs as [|v vs IH]; [done|].
  rewrite !fmap_cons, !filter_cons.
  assert (length (route_of_nodes locations start_point (0%nat :: dests v))
          = (length (dests v) + 2)%nat) as Hlen.
  { unfold route_of_nodes. rewrite length_app, length_fmap. simpl. lia. }
  destruct (decide (length (dests v) = 0%nat)) as [H0|H0].
  - rewrite decide_True by lia. simpl. by rewrite IH.
  - rewrite decide_False by lia. done.
Qed.

Lemma stop_time_of_nodes {fl : FloatOps} (locations : list (Location fl))
    (start_point : Location fl) (dests : nat -> list nat) (vs : list nat) :
  stop_time_of_routes
    ((fun v => route_of_nodes locations start_point (0%nat :: dests v)) <$> vs)
  = 60 * Z.of_nat (length (mjoin (dests <$> vs))).
Proof.
  induction vs as [|v vs IH]; [done|].
  rewrite !fmap_cons, stop_time_of_routes_cons, IH.
  unfold route_of_nodes. simpl mjoin. rewrite !length_app, length_fmap. simpl. lia.
Qed.

Lemma stop_time_visit_count {A} (routes : list (list A)) :
  stop_time_of_routes routes = 60 * visit_count routes.
Proof.
  induction routes as [|route routes IH]; [done|].
  rewrite stop_time_of_routes_cons, IH.
  change (visit_count (route :: routes))
    with (Z.of_nat (length route) - 2 + visit_count routes).
  lia.
Qed.

Lemma sum_list_Z_fmap_ext {A} (f g : A -> Z) (l : list A) :
  (forall x, x ∈ l -> f x = g x) ->
  sum_list_Z (f <$> l) = sum_list_Z (g <$> l).
Proof.
  induction l as [|x l IH]; intros Hfg; [done|].
  rewrite !fmap_cons. simpl. rewrite Hfg by (by left).
  rewrite IH; [done|]. intros y Hy. apply Hfg. by right.
Qed.

Lemma sum_list_Z_fmap_add {A} (f g : A -> Z) (l : list A) :
  sum_list_Z ((fun x => f x + g x) <$> l)
  = sum_list_Z (f <$> l) + sum_list_Z (g <$> l).
Proof.
  induction l as [|x l IH]; [done|].
  rewrite !fmap_cons. simpl. rewrite IH. lia.
Qed.

Lemma sum_list_Z_fmap_le {A} (f g : A -> Z) (l : list A) :
  (forall x, x ∈ l -> f x <= g x) ->
  sum_list_Z (f <$> l) <= sum_list_Z (g <$> l).
Proof.
  induction l as [|x l IH]; intros Hfg; [done|].
  rewrite !fmap_cons.
  change (sum_list_Z (?y :: ?ys)) with (y + sum_list_Z ys).
  assert (f x <= g x) by (apply Hfg; by left).
  assert (sum_list_Z (f <$> l) <= sum_list_Z (g <$> l))
    by (apply IH; intros y Hy; apply Hfg; by right).
  lia.
Qed.

Lemma sum_list_Z_lengths {A} (dests : A -> list nat) (c : Z) (l : list A) :
  sum_list_Z ((fun v => c * Z.of_nat (length (dests v))) <$> l)
  = c * Z.of_nat (length (mjoin (dests <$> l))).
Proof.
  induction l as [|v l IH]; [simpl; lia|].
  rewrite !fmap_cons.
  change (sum_list_Z (?y :: ?ys)) with (y + sum_list_Z ys). rewrite IH.
  change (mjoin (dests v :: (dests <$> l))) with (dests v ++ mjoin (dests <$> l)).
  rewrite length_app. lia.
Qed.

(** A fee charged for every nonempty list comes to the fee times the number
    of nonempty lists. *)
Lemma sum_list_Z_fee {A} (dests : A -> list nat) (fee : Z) (l : list A) :
  sum_list_Z ((fun v => if decide (dests v = []) then 0 else fee) <$> l)
  = fee * Z.of_nat
            (length l
             - length (filter (fun k => k = 0%nat) ((fun v => length (dests v)) <$> l))).
Proof.
  induction l as [|v l IH]; [simpl; lia|].
  rewrite !fmap_cons, filter_cons.
  change (sum_list_Z (?x :: ?xs)) with (x + sum_list_Z xs). rewrite IH.
  pose proof (length_filter (fun k => k = 0%nat) ((fun v => length (dests v)) <$> l))
    as Hle.
  rewrite length_fmap in Hle.
  set (zeros := length (filter (fun k => k = 0%nat)
                               ((fun v => length (dests v)) <$> l))) in *.
  destruct (dests v) as [|d ds].
  - rewrite decide_True by done. rewrite decide_True by done.
    change (length (?x :: ?xs)) with (S (length xs)). lia.
  - rewrite decide_False by done. rewrite decide_False by done.
    fold zeros. change (length (v :: l)) with (S (length l)).
    replace (S (length l) - zeros)%nat with (S (length l - zeros)) by lia.
    lia.
Qed.

Section SolvedCalls.
Context {fl : FloatOps}.
Variable SolveWithParameters :
  RoutingModel -> RoutingSearchParameters -> option Assignment.
Variables (fuel : nat) (st : session_state (float fl)) (start_point : Location fl)
          (shelters : list (Location fl)) (num_vehicles : nat)
          (distance_matrix : matrix) (solution : Assignment).
Local Abbreviation locations := (start_point :: shelters).
Local Abbreviation routing :=
  (routing_for distance_matrix (length locations) num_vehicles).
Local Abbreviation outcome :=
  (solve_vrp SolveWithParameters fuel st start_point shelters num_vehicles).

Hypothesis Hshelters : shelters <> [].
Hypothesis Hmatrix : build_distance_matrix locations = Ok distance_matrix.
Hypothesis Hsolve :
  SolveWithParameters routing search_parameters_used = Some solution.
Hypothesis Hok : solution_ok routing solution = true.
Hypothesis Hfuel : (Size routing < fuel)%nat.

Lemma Hvalid_of_ok : valid_solution routing solution.
Proof using Hok. by apply bool_decide_eq_true in Hok. Qed.

Lemma outcome_solved :
  outcome = (solved_state locations start_point routing solution, [], Ok tt).
Proof using Hshelters Hmatrix Hsolve Hok Hfuel.
  apply solve_vrp_solved; auto using Hvalid_of_ok.
Qed.

(** The stored routes are the coordinate routes of the depot followed by
    each vehicle's destinations. *)
Lemma route_data_solved :
  route_data outcome.1.1
  = (fun v => route_of_nodes locations start_point
                (0%nat :: vehicle_destinations routing solution v))
    <$> range num_vehicles.
Proof using Hshelters Hmatrix Hsolve Hok Hfuel.
  rewrite outcome_solved. simpl. rewrite vehicles_routing_for.
  apply list_eq_Forall2, Forall2_fmap, Forall2_same_length_lookup_2; [done|].
  intros i v w Hv Hw. rewrite Hv in Hw. injection Hw as <-.
  apply lookup_seq in Hv as [-> Hv]. simpl. f_equal.
  exact (proj1 (vehicle_destinations_spec distance_matrix (length locations)
                  num_vehicles solution Hvalid_of_ok ltac:(simpl; lia) i Hv)).
Qed.

(** A vehicle's cost in the objective: the arcs of its chain, and the
    fixed cost of 1000 when it visits a destination.  An unused vehicle's
    single arc runs from the depot to the depot and costs nothing. *)
Lemma route_cost_solved v :
  (v < num_vehicles)%nat ->
  route_cost routing solution v
  = path_arc_cost routing solution
      (default [] (fst <$> vehicle_path routing solution v))
    + (if decide (vehicle_destinations routing solution v = []) then 0 else 1000).
Proof using Hshelters Hmatrix Hsolve Hok Hfuel.
  intros Hv.
  destruct (vehicle_destinations_spec distance_matrix (length locations)
              num_vehicles solution Hvalid_of_ok ltac:(simpl; lia) v Hv)
    as (_ & Hpath & _).
  unfold route_cost. rewrite Hpath.
  change (default [] (fst <$> Some (?p, _))) with p.
  destruct (vehicle_destinations routing solution v) as [|d ds] eqn:Hd.
  - rewrite decide_False by (simpl; lia). rewrite decide_True by done.
    pose proof (walk_chain _ _ _ _ _ _ Hpath) as Hc.
    pose proof (chain_successor _ _ _ [] _ [] _ Hc) as Hnext. cbn [hd] in Hnext.
    unfold path_arc_cost. rewrite fmap_cons.
    change (sum_list_Z (?x :: _)) with (x + 0). rewrite Hnext.
    rewrite arc_cost_routing_for.
    assert (IndexToNode (manager_of routing) (Start routing v) = 0%nat) as ->
      by (eapply IndexToNode_Start; simpl; lia).
    assert (IndexToNode (manager_of routing) (End routing v) = 0%nat) as ->.
    { rewrite manager_of_routing_for. unfold IndexToNode, End.
      case_decide as Hlt; [|done].
      rewrite Size_routing_for in Hlt. simpl in Hlt. lia. }
    destruct (build_distance_matrix_filling _ _ Hmatrix) as (_ & Hdiag & _).
    rewrite Hdiag. lia.
  - rewrite decide_True by (simpl; lia). rewrite decide_False by done.
    rewrite fixed_cost_routing_for by lia. done.
Qed.

(** When no two different locations are closer than [c], every arc out of a
    destination costs at least [c], and so does the first arc of a vehicle
    that visits something. *)
Lemma path_arc_cost_at_least (c : Z) v :
  0 <= c ->
  (forall i j, (i < length locations)%nat -> (j < length locations)%nat ->
     i <> j -> c <= getitem distance_matrix i j) ->
  (v < num_vehicles)%nat ->
  c * Z.of_nat (length (vehicle_destinations routing solution v))
  + (if decide (vehicle_destinations routing solution v = []) then 0 else c)
  <= path_arc_cost routing solution
       (default [] (fst <$> vehicle_path routing solution v)).
Proof using Hshelters Hmatrix Hsolve Hok Hfuel.
  intros Hc Hfar Hv.
  destruct (vehicle_destinations_spec distance_matrix (length locations)
              num_vehicles solution Hvalid_of_ok ltac:(simpl; lia) v Hv)
    as (_ & Hpath & Hdests & Hnd).
  rewrite Hpath. change (default [] (fst <$> Some (?p, _))) with p.
  pose proof (walk_chain _ _ _ _ _ _ Hpath) as Hchain.
  assert (IndexToNode (manager_of routing) (Start routing v) = 0%nat) as Hstart
    by (eapply IndexToNode_Start; simpl; lia).
  assert (forall i, (1 <= i < length locations)%nat ->
            IndexToNode (manager_of routing) i = i) as Hnode.
  { intros i Hi. rewrite IndexToNode_routing_for. case_decide; [done|lia]. }
  assert (forall e, IsEnd routing e = true ->
            IndexToNode (manager_of routing) e = 0%nat) as Hend.
  { intros e He. apply IsEnd_true in He. rewrite Size_routing_for in He.
    rewrite IndexToNode_routing_for. case_decide; [lia|done]. }
  pose proof (chain_end_is_end _ _ _ _ _ Hchain) as HendE.
  (* every arc out of a destination *)
  assert (forall i, i ∈ vehicle_destinations routing solution v ->
            c <= arc_cost routing i (NextValue solution i)) as Hout.
  { intros i Hi. rewrite Forall_forall in Hdests. pose proof (Hdests i Hi) as Hirange.
    apply list_elem_of_split in Hi as (p1 & p2 & Hsplit).
    rewrite Hsplit in Hchain, Hnd, Hdests.
    pose proof (chain_successor _ _ _ (Start routing v :: p1) i p2 _ Hchain) as Hnext.
    rewrite arc_cost_routing_for, (Hnode i Hirange), Hnext.
    destruct p2 as [|j p2]; cbn [hd].
    - rewrite (Hend _ HendE). apply Hfar; lia.
    - assert (1 <= j < length locations)%nat as Hj.
      { apply Hdests. apply elem_of_app. right. right. by left. }
      rewrite (Hnode j Hj). apply Hfar; [lia|lia|].
      intros ->. apply NoDup_app in Hnd as (_ & _ & Hnd).
      apply NoDup_cons in Hnd as [Hnotin _]. apply Hnotin. by left. }
  unfold path_arc_cost. rewrite fmap_cons.
  change (sum_list_Z (?y :: ?ys)) with (y + sum_list_Z ys).
  assert (c * Z.of_nat (length (vehicle_destinations routing solution v))
          <= sum_list_Z ((fun i => arc_cost routing i (NextValue solution i))
                         <$> vehicle_destinations routing solution v)) as Hsum.
  { clear Hchain Hpath Hnd Hdests.
    induction (vehicle_destinations routing solution v) as [|i l IH]; [simpl; lia|].
    rewrite fmap_cons.
    change (sum_list_Z (?y :: ?ys)) with (y + sum_list_Z ys).
    assert (c <= arc_cost routing i (NextValue solution i)) by (apply Hout; by left).
    assert (c * Z.of_nat (length l)
            <= sum_list_Z ((fun i => arc_cost routing i (NextValue solution i)) <$> l))
      by (apply IH; intros; apply Hout; by right).
    change (length (i :: l)) with (S (length l)). lia. }
  assert ((if decide (vehicle_destinations routing solution v = []) then 0 else c)
          <= arc_cost routing (Start routing v) (NextValue solution (Start routing v)))
    as Hfirst.
  { pose proof (chain_successor _ _ _ [] _ _ _ Hchain) as Hnext.
    rewrite arc_cost_routing_for, Hstart, Hnext.
    destruct (vehicle_destinations routing solution v) as [|j l]; cbn [hd].
    - rewrite decide_True by done. rewrite (Hend _ HendE).
      destruct (build_distance_matrix_filling _ _ Hmatrix) as (_ & Hdiag & _).
      rewrite Hdiag. lia.
    - rewrite decide_False by done.
      assert (1 <= j < length locations)%nat as Hj.
      { rewrite Forall_forall in Hdests. apply Hdests. by left. }
      rewrite (Hnode j Hj). apply Hfar; [simpl; lia|lia|lia]. }
  lia.
Qed.

(** So the arcs driven cost at least [c] for every destination and for
    every vehicle that is used. *)
Lemma traversed_cost_at_least (c : Z) :
  0 <= c ->
  (forall i j, (i < length locations)%nat -> (j < length locations)%nat ->
     i <> j -> c <= getitem distance_matrix i j) ->
  c * (Z.of_nat (length shelters)
       + Z.of_nat (num_vehicles - trivial_routes (route_data outcome.1.1)))
  <= traversed_cost routing solution.
Proof using Hshelters Hmatrix Hsolve Hok Hfuel.
  intros Hc Hfar. unfold traversed_cost. rewrite vehicles_routing_for.
  etransitivity;
    [|apply (sum_list_Z_fmap_le
               (fun v => c * Z.of_nat (length (vehicle_destinations routing solution v))
                         + (if decide (vehicle_destinations routing solution v = [])
                            then 0 else c)))].
  2: { intros v Hv. apply elem_of_seq in Hv. apply path_arc_cost_at_least; [done|done|lia]. }
  rewrite (sum_list_Z_fmap_add
             (fun v => c * Z.of_nat (length (vehicle_destinations routing solution v)))).
  rewrite (sum_list_Z_lengths (vehicle_destinations routing solution)).
  rewrite (sum_list_Z_fee (vehicle_destinations routing solution)).
  rewrite (destinations_permutation distance_matrix (length locations)
             num_vehicles solution Hvalid_of_ok ltac:(simpl; lia)).
  rewrite length_seq.
  replace (length locations - 1)%nat with (length shelters) by (simpl; lia).
  rewrite route_data_solved.
  rewrite (trivial_routes_of_nodes locations start_point
             (vehicle_destinations routing solution) (range num_vehicles)).
  rewrite length_range. lia.
Qed.

(** The objective of a successful call is the cost of the arcs driven plus
    1000 for every vehicle whose stored route is not the depot twice. *)
Lemma objective_is_arcs_plus_fixed_costs :
  ObjectiveValue solution
  = traversed_cost routing solution
    + 1000 * Z.of_nat (num_vehicles - trivial_routes (route_data outcome.1.1)).
Proof using Hshelters Hmatrix Hsolve Hok Hfuel.
  rewrite (objective_value _ _ Hvalid_of_ok). unfold objective, traversed_cost.
  rewrite vehicles_routing_for.
  rewrite (sum_list_Z_fmap_ext (route_cost routing solution)
             (fun v => path_arc_cost routing solution
                         (default [] (fst <$> vehicle_path routing solution v))
                       + (if decide (vehicle_destinations routing solution v = [])
                          then 0 else 1000))
             (range num_vehicles)).
  2: { intros v Hv. apply elem_of_seq in Hv. apply route_cost_solved. lia. }
  rewrite (sum_list_Z_fmap_add
             (fun v => path_arc_cost routing solution
                         (default [] (fst <$> vehicle_path routing solution v)))).
  f_equal.
  rewrite (sum_list_Z_fee (vehicle_destinations routing solution)).
  rewrite route_data_solved.
  rewrite (trivial_routes_of_nodes locations start_point
             (vehicle_destinations routing solution) (range num_vehicles)).
  by rewrite length_range.
Qed.

(** C2.  After a successful call every destination index 1..N is on
    exactly one vehicle's route, once: the stored routes are the coordinate
    routes of the vehicles' destination lists, and these lists joined are a
    permutation of 1..N. *)
Theorem C2_each_destination_visited_once :
  outcome.2 = Ok tt /\
  route_data outcome.1.1
  = (fun v => route_of_nodes locations start_point
                (0%nat :: vehicle_destinations routing solution v))
    <$> range num_vehicles /\
  mjoin (vehicle_destinations routing solution <$> range num_vehicles)
  ≡ₚ seq 1 (length shelters).
Proof using Hshelters Hmatrix Hsolve Hok Hfuel.
  split; [by rewrite outcome_solved|]. split; [apply route_data_solved|].
  rewrite (destinations_permutation distance_matrix (length locations)
             num_vehicles solution Hvalid_of_ok ltac:(simpl; lia)).
  simpl. by rewrite Nat.sub_0_r.
Qed.

(** C3.  After a successful call there is one route per vehicle, each
    beginning and ending with the depot's coordinate; a vehicle whose start
    is followed at once by an end index gets the depot twice and nothing
    else. *)
Theorem C3_routes_begin_and_end_at_depot :
  outcome.2 = Ok tt /\
  length (route_data outcome.1.1) = num_vehicles /\
  Forall (fun route => head route = Some start_point /\
                       last route = Some start_point)
         (route_data outcome.1.1) /\
  forall v, (v < num_vehicles)%nat ->
    IsEnd routing (NextValue solution (Start routing v)) = true ->
    route_data outcome.1.1 !! v = Some [start_point; start_point].
Proof using Hshelters Hmatrix Hsolve Hok Hfuel.
  split; [by rewrite outcome_solved|]. rewrite route_data_solved.
  split; [by rewrite length_fmap, length_range|]. split.
  - apply Forall_fmap, Forall_forall. intros v _. simpl.
    unfold route_of_nodes. split; [done|]. apply last_snoc.
  - intros v Hv Hend. rewrite list_lookup_fmap.
    unfold range. rewrite lookup_seq_lt by done. simpl. f_equal.
    destruct (vehicle_destinations_spec distance_matrix (length locations)
                num_vehicles solution Hvalid_of_ok ltac:(simpl; lia) v Hv)
      as (_ & Hpath & _).
    apply walk_chain in Hpath.
    destruct (chain_not_end_inv _ _ _ _ _ Hpath) as (p' & Hp' & Hc).
    { apply Start_not_end; [apply depot_routing_for; simpl; lia|].
      by rewrite vehicles_routing_for. }
    injection Hp' as <-.
    destruct (chain_end_inv _ _ _ _ _ Hc Hend) as [-> _]. done.
Qed.

(** C5, as the code has it.  More vehicles than destinations is no error,
    and at least [num_vehicles - N] of the stored routes are the depot
    twice; how many more is the solver's choice. *)
Theorem C5_surplus_vehicles_get_trivial_routes :
  outcome.2 = Ok tt /\
  (num_vehicles - length shelters <= trivial_routes (route_data outcome.1.1))%nat /\
  forall route, route ∈ route_data outcome.1.1 -> length route = 2%nat ->
    route = [start_point; start_point].
Proof using Hshelters Hmatrix Hsolve Hok Hfuel.
  split; [by rewrite outcome_solved|]. rewrite route_data_solved. split.
  - rewrite (trivial_routes_of_nodes locations start_point
               (vehicle_destinations routing solution) (range num_vehicles)).
    pose proof (zeros_and_sum
      ((fun v => length (vehicle_destinations routing solution v))
       <$> range num_vehicles)) as Hcount.
    rewrite length_fmap, length_range in Hcount.
    assert (sum_list ((fun v => length (vehicle_destinations routing solution v))
                      <$> range num_vehicles) = length shelters) as Hsum.
    { rewrite (list_fmap_compose (vehicle_destinations routing solution) length).
      rewrite <- length_join.
      rewrite (destinations_permutation distance_matrix (length locations)
                 num_vehicles solution Hvalid_of_ok ltac:(simpl; lia)).
      rewrite length_seq. simpl. lia. }
    lia.
  - intros route Hroute Hlen.
    apply list_elem_of_fmap in Hroute as (v & -> & _).
    destruct (vehicle_destinations routing solution v) as [|d ds]; [done|].
    unfold route_of_nodes in Hlen. rewrite length_app, length_fmap in Hlen.
    simpl in Hlen. lia.
Qed.

(** C6.  After a successful call the stored time is
    [round(total_distance / 0.667, 2)] plus 60 for every destination visit,
    where [total_distance] is the stored distance; the visits are counted
    per route as its length less 2, which leaves out the two depot entries,
    and come to one per destination. *)
Theorem C6_total_time :
  outcome.2 = Ok tt /\
  let total_distance := int_truediv fl (ObjectiveValue solution) 1000 in
  let routes := route_data outcome.1.1 in
  route_distance outcome.1.1 = Some total_distance /\
  route_time outcome.1.1
  = Some (fadd_int fl
            (round_ndigits fl (fdiv fl total_distance (lit_0_667 fl)) 2)
            (60 * visit_count routes)) /\
  visit_count routes = Z.of_nat (length shelters) /\
  Forall2 (fun route v =>
             Z.of_nat (length route) - 2
             = Z.of_nat (length (vehicle_destinations routing solution v)))
          routes (range num_vehicles).
Proof using Hshelters Hmatrix Hsolve Hok Hfuel.
  split; [by rewrite outcome_solved|]. cbv zeta.
  assert (visit_count (route_data outcome.1.1) = Z.of_nat (length shelters)) as Hvisits.
  { pose proof (stop_time_visit_count (route_data outcome.1.1)) as Hst.
    rewrite route_data_solved in Hst |- *.
    rewrite (stop_time_of_nodes locations start_point
               (vehicle_destinations routing solution) (range num_vehicles)) in Hst.
    rewrite (destinations_permutation distance_matrix (length locations)
               num_vehicles solution Hvalid_of_ok ltac:(simpl; lia)) in Hst.
    rewrite length_seq in Hst.
    replace (length locations - 1)%nat with (length shelters) in Hst
      by (simpl; lia).
    lia. }
  split; [by rewrite outcome_solved|]. split; [|split; [done|]].
  - rewrite <- stop_time_visit_count. by rewrite outcome_solved.
  - rewrite route_data_solved. apply Forall2_fmap_l, Forall2_same_length_lookup_2;
      [done|].
    intros i v w Hv Hw. rewrite Hv in Hw. injection Hw as <-.
    unfold compose, route_of_nodes. rewrite length_app, length_fmap. simpl. lia.
Qed.
End SolvedCalls.

(** ** One destination, one vehicle *)

Lemma OneStop_matrix :
  build_distance_matrix (OneStop.origin :: OneStop.destinations)
  = Ok OneStop.distance_matrix.
Proof. vm_compute. reflexivity. Qed.

(** The routing constraints leave one assignment: 0 -> 1 -> end, at the cost
    of the two arcs and the vehicle's fixed cost. *)
Lemma OneStop_assignment solution :
  valid_solution OneStop.routing solution ->
  vehicle_path OneStop.routing solution 0 = Some ([0; 1]%nat, 2%nat) /\
  vehicle_nodes OneStop.routing solution 0 = [0; 1]%nat /\
  ObjectiveValue solution = 201000.
Proof.
  intros Hvalid.
  pose proof (destinations_permutation OneStop.distance_matrix 2 1 solution Hvalid
                ltac:(lia)) as Hperm.
  destruct (vehicle_destinations_spec OneStop.distance_matrix 2 1 solution Hvalid
              ltac:(lia) 0%nat ltac:(lia)) as (Hnodes & Hpath & _).
  change (mjoin (vehicle_destinations (routing_for OneStop.distance_matrix 2 1)
                   solution <$> range 1))
    with (vehicle_destinations OneStop.routing solution 0 ++ []) in Hperm.
  rewrite app_nil_r in Hperm. change (seq 1 (2 - 1)) with [1%nat] in Hperm.
  apply Permutation_singleton_r in Hperm.
  fold OneStop.routing in Hnodes, Hpath. rewrite Hperm in Hnodes, Hpath.
  change (Start OneStop.routing 0) with 0%nat in Hpath.
  change (End OneStop.routing 0) with 2%nat in Hpath.
  split; [done|]. split; [done|].
  pose proof (walk_chain _ _ _ _ _ _ Hpath) as Hc.
  pose proof (chain_successor _ _ _ [] 0%nat [1%nat] _ Hc) as Hn0.
  pose proof (chain_successor _ _ _ [0%nat] 1%nat [] _ Hc) as Hn1.
  simpl in Hn0, Hn1.
  rewrite (objective_value _ _ Hvalid). unfold objective.
  change (range (vehicles OneStop.routing)) with [0%nat].
  simpl. unfold route_cost. rewrite Hpath. simpl. unfold path_arc_cost. simpl.
  rewrite Hn0, Hn1. reflexivity.
Qed.

Lemma OneStop_solved SolveWithParameters fuel (st : session_state PrimFloat.float)
    solution :
  SolveWithParameters OneStop.routing search_parameters_used = Some solution ->
  solution_ok OneStop.routing solution = true ->
  (2 < fuel)%nat ->
  solve_vrp (fl := Binary64.ops) SolveWithParameters fuel st OneStop.origin OneStop.destinations 1
  = (OneStop.solved, [], Ok tt).
Proof.
  intros Hsolve Hok Hfuel.
  rewrite (outcome_solved (fl := Binary64.ops) SolveWithParameters fuel st OneStop.origin
             OneStop.destinations 1 OneStop.distance_matrix solution);
    [|discriminate|exact OneStop_matrix|exact Hsolve|exact Hok|exact Hfuel].
  apply bool_decide_eq_true in Hok.
  destruct (OneStop_assignment solution Hok) as (_ & Hnodes & Hobj).
  unfold solved_state. rewrite Hobj.
  change (range (vehicles (routing_for OneStop.distance_matrix
            (length (OneStop.origin :: OneStop.destinations)) 1))) with [0%nat].
  rewrite !fmap_cons, !fmap_nil.
  change (routing_for OneStop.distance_matrix
            (length (OneStop.origin :: OneStop.destinations)) 1) with OneStop.routing.
  rewrite Hnodes. reflexivity.
Qed.

(** C9.  Origin (0,0), the single destination (0,1), one vehicle: whatever
    assignment the solver returns within the routing constraints, the call
    stores the one route [(0,0), (0,1), (0,0)]; its stop count is 1 and the
    service time added to the travel time is 60 minutes. *)
Theorem C9_one_destination_one_vehicle SolveWithParameters fuel
    (st : session_state PrimFloat.float) solution :
  SolveWithParameters OneStop.routing search_parameters_used = Some solution ->
  solution_ok OneStop.routing solution = true ->
  (2 < fuel)%nat ->
  let outcome :=
    solve_vrp (fl := Binary64.ops) SolveWithParameters fuel st OneStop.origin OneStop.destinations 1 in
  outcome.2 = Ok tt /\
  route_data outcome.1.1
  = [[(0%float, 0%float); (0%float, 1%float); (0%float, 0%float)]] /\
  visit_count (route_data outcome.1.1) = 1 /\
  stop_time_of_routes (route_data outcome.1.1) = 60 /\
  route_time outcome.1.1
  = Some (fadd_int Binary64.ops
            (round_ndigits Binary64.ops
               (fdiv Binary64.ops 201%float (lit_0_667 Binary64.ops)) 2) 60).
Proof.
  intros Hsolve Hok Hfuel outcome. unfold outcome.
  rewrite (OneStop_solved SolveWithParameters fuel st solution Hsolve Hok Hfuel).
  repeat split; reflexivity.
Qed.

Lemma C9_witness :
  let outcome :=
    solve_vrp (fl := Binary64.ops) (constant_solver (Some OneStop.solution)) 10 fresh_session
      OneStop.origin OneStop.destinations 1 in
  outcome.2 = Ok tt /\
  route_data outcome.1.1
  = [[(0%float, 0%float); (0%float, 1%float); (0%float, 0%float)]] /\
  visit_count (route_data outcome.1.1) = 1 /\
  stop_time_of_routes (route_data outcome.1.1) = 60 /\
  route_time outcome.1.1
  = Some (fadd_int Binary64.ops
            (round_ndigits Binary64.ops
               (fdiv Binary64.ops 201%float (lit_0_667 Binary64.ops)) 2) 60).
Proof.
  apply (C9_one_destination_one_vehicle (constant_solver (Some OneStop.solution))
           10 fresh_session OneStop.solution).
  - reflexivity.
  - vm_compute. reflexivity.
  - lia.
Defined.

(** C1, at one destination.  The stored distance is the objective over
    1000, and the objective carries the vehicle's fixed cost of 1000 on top
    of the arcs driven: the two arcs cost 200000, the objective is 201000,
    and the stored distance is 201.0 where the arcs alone give 200.0. *)
Theorem C1_stored_distance_includes_fixed_cost SolveWithParameters fuel
    (st : session_state PrimFloat.float) solution :
  SolveWithParameters OneStop.routing search_parameters_used = Some solution ->
  solution_ok OneStop.routing solution = true ->
  (2 < fuel)%nat ->
  let outcome :=
    solve_vrp (fl := Binary64.ops) SolveWithParameters fuel st OneStop.origin OneStop.destinations 1 in
  traversed_cost OneStop.routing solution = 200000 /\
  ObjectiveValue solution = 201000 /\
  route_distance outcome.1.1 = Some 201%float /\
  int_truediv Binary64.ops (traversed_cost OneStop.routing solution) 1000
  = 200%float /\
  route_distance outcome.1.1
  <> Some (int_truediv Binary64.ops (traversed_cost OneStop.routing solution) 1000).
Proof.
  intros Hsolve Hok Hfuel outcome. unfold outcome.
  rewrite (OneStop_solved SolveWithParameters fuel st solution Hsolve Hok Hfuel).
  apply bool_decide_eq_true in Hok.
  destruct (OneStop_assignment solution Hok) as (Hpath & _ & Hobj).
  assert (traversed_cost OneStop.routing solution = 200000) as Htrav.
  { pose proof (walk_chain _ _ _ _ _ _ Hpath) as Hc.
    pose proof (chain_successor _ _ _ [] 0%nat [1%nat] _ Hc) as Hn0.
    pose proof (chain_successor _ _ _ [0%nat] 1%nat [] _ Hc) as Hn1.
    simpl in Hn0, Hn1.
    unfold traversed_cost. change (range (vehicles OneStop.routing)) with [0%nat].
    rewrite !fmap_cons, !fmap_nil. rewrite Hpath. simpl.
    unfold path_arc_cost. simpl. rewrite Hn0, Hn1. reflexivity. }
  rewrite Htrav. repeat split; done.
Qed.

Lemma C1_witness :
  let outcome :=
    solve_vrp (fl := Binary64.ops) (constant_solver (Some OneStop.solution)) 10 fresh_session
      OneStop.origin OneStop.destinations 1 in
  traversed_cost OneStop.routing OneStop.solution = 200000 /\
  ObjectiveValue OneStop.solution = 201000 /\
  route_distance outcome.1.1 = Some 201%float /\
  int_truediv Binary64.ops (traversed_cost OneStop.routing OneStop.solution) 1000
  = 200%float /\
  route_distance outcome.1.1
  <> Some (int_truediv Binary64.ops
             (traversed_cost OneStop.routing OneStop.solution) 1000).
Proof.
  apply (C1_stored_distance_includes_fixed_cost
           (constant_solver (Some OneStop.solution)) 10 fresh_session
           OneStop.solution).
  - reflexivity.
  - vm_compute. reflexivity.
  - lia.
Defined.

(** ** Three destinations, five vehicles *)

Lemma ThreeStops_matrix :
  build_distance_matrix (ThreeStops.origin :: ThreeStops.destinations)
  = Ok ThreeStops.distance_matrix.
Proof. vm_compute. reflexivity. Qed.

Lemma ThreeStops_one_tour_ok :
  solution_ok ThreeStops.routing ThreeStops.one_tour = true.
Proof. vm_compute. reflexivity. Qed.

(** C5, as the spec has it, fails: with three destinations and five vehicles
    the assignment that sends vehicle 0 round the square meets every routing
    constraint, and the call then stores four routes that are the depot
    twice, not two. *)
Lemma C5_counterexample :
  let outcome :=
    solve_vrp (fl := Binary64.ops) (constant_solver (Some ThreeStops.one_tour)) 20
      fresh_session ThreeStops.origin ThreeStops.destinations 5 in
  solution_ok ThreeStops.routing ThreeStops.one_tour = true /\
  outcome.2 = Ok tt /\
  trivial_routes (route_data outcome.1.1) = 4%nat /\
  trivial_routes (route_data outcome.1.1) <> (5 - length ThreeStops.destinations)%nat.
Proof.
  split; [exact ThreeStops_one_tour_ok|].
  assert (trivial_routes
            (route_data
               (solve_vrp (fl := Binary64.ops)
                  (constant_solver (Some ThreeStops.one_tour)) 20 fresh_session
                  ThreeStops.origin ThreeStops.destinations 5).1.1) = 4%nat) as Hfour
    by (vm_compute; reflexivity).
  cbv zeta. rewrite Hfour.
  split; [vm_compute; reflexivity|]. split; [done|]. simpl. lia.
Qed.

Lemma ThreeStops_locations_apart i j :
  (i < 4)%nat -> (j < 4)%nat -> i <> j ->
  100000 <= getitem ThreeStops.distance_matrix i j.
Proof.
  intros Hi Hj Hne.
  destruct i as [|[|[|[|i]]]]; [| | | |lia];
    (destruct j as [|[|[|[|j]]]]; [| | | |lia]);
    try done; vm_compute; discriminate.
Qed.

(** Whatever assignment the solver returns for the three destinations, its
    objective is at least 300000 for the arcs out of the destinations and
    101000 for every used vehicle.  Using three vehicles (two trivial routes)
    costs 603000 or more; the single tour costs 401000. *)
Lemma ThreeStops_objective_at_least solution :
  solution_ok ThreeStops.routing solution = true ->
  let outcome :=
    solve_vrp (fl := Binary64.ops) (constant_solver (Some solution)) 20
      fresh_session ThreeStops.origin ThreeStops.destinations 5 in
  300000 + 101000 * Z.of_nat (5 - trivial_routes (route_data outcome.1.1))
  <= ObjectiveValue solution.
Proof.
  intros Hok outcome.
  pose proof (objective_is_arcs_plus_fixed_costs (fl := Binary64.ops)
                (constant_solver (Some solution)) 20 fresh_session
                ThreeStops.origin ThreeStops.destinations 5
                ThreeStops.distance_matrix solution
                ltac:(discriminate) ThreeStops_matrix eq_refl Hok
                ltac:(vm_compute; lia)) as Hobj.
  pose proof (traversed_cost_at_least (fl := Binary64.ops)
                (constant_solver (Some solution)) 20 fresh_session
                ThreeStops.origin ThreeStops.destinations 5
                ThreeStops.distance_matrix solution
                ltac:(discriminate) ThreeStops_matrix eq_refl Hok
                ltac:(vm_compute; lia) 100000 ltac:(lia)
                ThreeStops_locations_apart) as Htrav.
  fold outcome in Hobj, Htrav.
  change (length ThreeStops.destinations) with 3%nat in Htrav.
  lia.
Qed.

Lemma C2_witness :
  let outcome :=
    solve_vrp (fl := Binary64.ops) (constant_solver (Some ThreeStops.one_tour)) 20
      fresh_session ThreeStops.origin ThreeStops.destinations 5 in
  outcome.2 = Ok tt /\
  route_data outcome.1.1
  = (fun v => route_of_nodes (ThreeStops.origin :: ThreeStops.destinations)
                ThreeStops.origin
                (0%nat :: vehicle_destinations ThreeStops.routing
                            ThreeStops.one_tour v))
    <$> range 5 /\
  mjoin (vehicle_destinations ThreeStops.routing ThreeStops.one_tour <$> range 5)
  ≡ₚ seq 1 3.
Proof.
  apply (C2_each_destination_visited_once (fl := Binary64.ops)
           (constant_solver (Some ThreeStops.one_tour)) 20 fresh_session
           ThreeStops.origin ThreeStops.destinations 5
           ThreeStops.distance_matrix ThreeStops.one_tour).
  - discriminate.
  - vm_compute. reflexivity.
  - reflexivity.
  - vm_compute. reflexivity.
  - vm_compute. lia.
Defined.

Lemma C3_witness :
  let outcome :=
    solve_vrp (fl := Binary64.ops) (constant_solver (Some ThreeStops.one_tour)) 20
      fresh_session ThreeStops.origin ThreeStops.destinations 5 in
  outcome.2 = Ok tt /\
  length (route_data outcome.1.1) = 5%nat /\
  Forall (fun route => head route = Some ThreeStops.origin /\
                       last route = Some ThreeStops.origin)
         (route_data outcome.1.1) /\
  forall v, (v < 5)%nat ->
    IsEnd ThreeStops.routing
      (NextValue ThreeStops.one_tour (Start ThreeStops.routing v)) = true ->
    route_data outcome.1.1 !! v = Some [ThreeStops.origin; ThreeStops.origin].
Proof.
  apply (C3_routes_begin_and_end_at_depot (fl := Binary64.ops)
           (constant_solver (Some ThreeStops.one_tour)) 20 fresh_session
           ThreeStops.origin ThreeStops.destinations 5
           ThreeStops.distance_matrix ThreeStops.one_tour).
  - discriminate.
  - vm_compute. reflexivity.
  - reflexivity.
  - vm_compute. reflexivity.
  - vm_compute. lia.
Defined.

Lemma C5_witness :
  let outcome :=
    solve_vrp (fl := Binary64.ops) (constant_solver (Some ThreeStops.one_tour)) 20
      fresh_session ThreeStops.origin ThreeStops.destinations 5 in
  outcome.2 = Ok tt /\
  (5 - length ThreeStops.destinations
   <= trivial_routes (route_data outcome.1.1))%nat /\
  forall route, route ∈ route_data outcome.1.1 -> length route = 2%nat ->
    route = [ThreeStops.origin; ThreeStops.origin].
Proof.
  apply (C5_surplus_vehicles_get_trivial_routes (fl := Binary64.ops)
           (constant_solver (Some ThreeStops.one_tour)) 20 fresh_session
           ThreeStops.origin ThreeStops.destinations 5
           ThreeStops.distance_matrix ThreeStops.one_tour).
  - discriminate.
  - vm_compute. reflexivity.
  - reflexivity.
  - vm_compute. reflexivity.
  - vm_compute. lia.
Defined.

Lemma C6_witness :
  let outcome :=
    solve_vrp (fl := Binary64.ops) (constant_solver (Some ThreeStops.one_tour)) 20
      fresh_session ThreeStops.origin ThreeStops.destinations 5 in
  outcome.2 = Ok tt /\
  let total_distance := int_truediv Binary64.ops 401000 1000 in
  let routes := route_data outcome.1.1 in
  route_distance outcome.1.1 = Some total_distance /\
  route_time outcome.1.1
  = Some (fadd_int Binary64.ops
            (round_ndigits Binary64.ops
               (fdiv Binary64.ops total_distance (lit_0_667 Binary64.ops)) 2)
            (60 * visit_count routes)) /\
  visit_count routes = 3 /\
  Forall2 (fun route v =>
             Z.of_nat (length route) - 2
             = Z.of_nat (length (vehicle_destinations ThreeStops.routing
                                   ThreeStops.one_tour v)))
          routes (range 5).
Proof.
  apply (C6_total_time (fl := Binary64.ops)
           (constant_solver (Some ThreeStops.one_tour)) 20 fresh_session
           ThreeStops.origin ThreeStops.destinations 5
           ThreeStops.distance_matrix ThreeStops.one_tour).
  - discriminate.
  - vm_compute. reflexivity.
  - reflexivity.
  - vm_compute. reflexivity.
  - vm_compute. lia.
Defined.

(** * Further properties of the code *)

(** ** The distance matrix, cell by cell *)

(** X1.  When the loops of lines 128-132 get through, the table has one row
    and one column per location, and the cell of two different locations
    holds [int(distance * 100000)] of exactly these two, an int64 value. *)
Theorem X1_distance_matrix_cells {fl : FloatOps}
    (locations : list (Location fl)) (m : matrix) :
  build_distance_matrix locations = Ok m ->
  length m = length locations /\
  Forall (fun row => length row = length locations) m /\
  forall i j a b, i <> j ->
    locations !! i = Some a -> locations !! j = Some b ->
    scaled_distance a b = Ok (getitem m i j) /\
    - 2 ^ 63 <= getitem m i j < 2 ^ 63.
Proof.
  intros Hbuild.
  destruct (build_distance_matrix_filling locations m Hbuild)
    as ((Hlen & Hrows) & _ & Hcells).
  split; [done|]. split; [done|].
  intros i j a b Hne Ha Hb.
  destruct (Hcells i j) as (a' & b' & Ha' & Hb' & Hab & Hfit);
    [by eapply lookup_lt_Some|done|by eapply lookup_lt_Some|].
  rewrite Ha in Ha'. rewrite Hb in Hb'. injection Ha' as <-. injection Hb' as <-.
  split; [done|].
  unfold fits_int64 in Hfit. apply andb_true_iff in Hfit as [H1 H2].
  apply Z.leb_le in H1. apply Z.ltb_lt in H2. lia.
Qed.

Lemma X1_witness :
  let locations := ThreeStops.origin :: ThreeStops.destinations in
  let m := ThreeStops.distance_matrix in
  length m = length locations /\
  Forall (fun row => length row = length locations) m /\
  forall i j a b, i <> j ->
    locations !! i = Some a -> locations !! j = Some b ->
    scaled_distance (fl := Binary64.ops) a b = Ok (getitem m i j) /\
    - 2 ^ 63 <= getitem m i j < 2 ^ 63.
Proof.
  apply (X1_distance_matrix_cells (fl := Binary64.ops)).
  vm_compute. reflexivity.
Defined.

(** A loop over [range n] whose body always returns gets through. *)
Lemma for_range_total {S} (Inv : nat -> S -> Prop) (n : nat)
    (body : S -> nat -> result S) (s0 : S) :
  Inv 0%nat s0 ->
  (forall k s, (k < n)%nat -> Inv k s ->
     exists s', body s k = Ok s' /\ Inv (Datatypes.S k) s') ->
  exists s, for_each (range n) body s0 = Ok s /\ Inv n s.
Proof.
  intros H0 Hstep. induction n as [|n IH].
  - exists s0. done.
  - destruct IH as (s1 & Hrun & Hinv); [intros k s Hk; apply Hstep; lia|].
    destruct (Hstep n s1 ltac:(lia) Hinv) as (s2 & Hbody & Hinv2).
    exists s2. split; [|done].
    unfold range in *. rewrite seq_S, for_each_app, Hrun. simpl.
    by rewrite Hbody.
Qed.

(** X2.  The table gets built exactly when every ordered pair of different
    locations has a scaled distance that converts to an int and fits an
    int64 cell; nothing else can stop the loops. *)
Theorem X2_distance_matrix_built_iff {fl : FloatOps}
    (locations : list (Location fl)) :
  (exists m, build_distance_matrix locations = Ok m) <->
  (forall i j a b, i <> j ->
     locations !! i = Some a -> locations !! j = Some b ->
     exists v, scaled_distance a b = Ok v /\ fits_int64 v = true).
Proof.
  split.
  - intros [m Hbuild] i j a b Hne Ha Hb.
    destruct (build_distance_matrix_filling locations m Hbuild) as (_ & _ & Hcells).
    destruct (Hcells i j) as (a' & b' & Ha' & Hb' & Hab & Hfit);
      [by eapply lookup_lt_Some|done|by eapply lookup_lt_Some|].
    rewrite Ha in Ha'. rewrite Hb in Hb'. injection Ha' as <-. injection Hb' as <-.
    eauto.
  - intros Hpairs. unfold build_distance_matrix.
    destruct (for_range_total (fun _ _ => True) (length locations)
                (fill_row locations (length locations))
                (np_zeros (length locations))) as (m & Hrun & _); [done| |by exists m].
    intros i m1 Hi _. unfold fill_row.
    destruct (for_range_total (fun _ _ => True) (length locations)
                (fill_cell locations i) m1) as (m2 & Hrow & _); [done| |by exists m2].
    intros j m3 Hj _. unfold fill_cell.
    destruct (decide (i ≠ j)) as [Hne|_]; [|by eexists].
    destruct (lookup_lt_is_Some_2 locations i Hi) as [a Ha].
    destruct (lookup_lt_is_Some_2 locations j Hj) as [b Hb].
    destruct (Hpairs i j a b Hne Ha Hb) as (v & Hv & Hfit).
    unfold list_getitem. rewrite Ha, Hb. simpl. rewrite Hv. simpl.
    unfold setitem. rewrite Hfit. by eexists.
Qed.

(** ** Calls that do not get as far as the solver *)



(** ** What a successful call stores *)

(** X4.  A call that returns with a solution stores nothing of the previous
    outputs: started from any two session states it ends in the same one.
    Line 160 empties the route list, lines 180 and 182 overwrite the two
    numbers. *)
Theorem X4_successful_solve_replaces_outputs {fl : FloatOps} SolveWithParameters
    fuel (st1 st2 : session_state (float fl)) (start_point : Location fl)
    (shelters : list (Location fl)) num_vehicles m solution :
  shelters <> [] ->
  build_distance_matrix (start_point :: shelters) = Ok m ->
  SolveWithParameters
    (routing_for m (length (start_point :: shelters)) num_vehicles)
    search_parameters_used = Some solution ->
  (solve_vrp SolveWithParameters fuel st1 start_point shelters num_vehicles).2
  = Ok tt ->
  solve_vrp SolveWithParameters fuel st1 start_point shelters num_vehicles
  = solve_vrp SolveWithParameters fuel st2 start_point shelters num_vehicles.
Proof.
  intros Hne Hm Hsolve. destruct shelters as [|shelter shelters]; [done|].
  rewrite !solve_vrp_unfold. cbv zeta. rewrite Hm, Hsolve.
  destruct (for_each _ _ _) as [[data t]| |]; simpl; done.
Qed.

Lemma X4_witness :
  solve_vrp (fl := Binary64.ops) (constant_solver (Some ThreeStops.one_tour)) 20
    fresh_session ThreeStops.origin ThreeStops.destinations 5
  = solve_vrp (fl := Binary64.ops) (constant_solver (Some ThreeStops.one_tour)) 20
      OneStop.solved ThreeStops.origin ThreeStops.destinations 5.
Proof.
  apply (X4_successful_solve_replaces_outputs (fl := Binary64.ops)
           (constant_solver (Some ThreeStops.one_tour)) 20 fresh_session
           OneStop.solved ThreeStops.origin ThreeStops.destinations 5
           ThreeStops.distance_matrix ThreeStops.one_tour).
  - discriminate.
  - vm_compute. reflexivity.
  - reflexivity.
  - vm_compute. reflexivity.
Defined.

Lemma location_of_destinations {fl : FloatOps} (start_point : Location fl)
    (shelters : list (Location fl)) :
  location_of (start_point :: shelters) start_point <$> seq 1 (length shelters)
  = shelters.
Proof.
  apply list_eq. intros i. rewrite list_lookup_fmap.
  destruct (decide (i < length shelters)%nat) as [Hi|Hi].
  - rewrite lookup_seq_lt by done. simpl. unfold location_of. simpl.
    destruct (lookup_lt_is_Some_2 shelters i Hi) as [x Hx]. by rewrite Hx.
  - rewrite lookup_seq_ge by lia. simpl. symmetry. apply lookup_ge_None. lia.
Qed.

Lemma join_fmap_fmap {A B} (f : A -> B) (ls : list (list A)) :
  mjoin (fmap f <$> ls) = f <$> mjoin ls.
Proof.
  induction ls as [|l ls IH]; [done|].
  rewrite fmap_cons. simpl. by rewrite fmap_app, IH.
Qed.

Section StoredRoutes.
Context {fl : FloatOps}.
Variable SolveWithParameters :
  RoutingModel -> RoutingSearchParameters -> option Assignment.
Variables (fuel : nat) (st : session_state (float fl)) (start_point : Location fl)
          (shelters : list (Location fl)) (num_vehicles : nat)
          (distance_matrix : matrix) (solution : Assignment).
Local Abbreviation locations := (start_point :: shelters).
Local Abbreviation routing :=
  (routing_for distance_matrix (length locations) num_vehicles).
Local Abbreviation outcome :=
  (solve_vrp SolveWithParameters fuel st start_point shelters num_vehicles).

Hypothesis Hshelters : shelters <> [].
Hypothesis Hmatrix : build_distance_matrix locations = Ok distance_matrix.
Hypothesis Hsolve :
  SolveWithParameters routing search_parameters_used = Some solution.
Hypothesis Hok : solution_ok routing solution = true.
Hypothesis Hfuel : (Size routing < fuel)%nat.


(** X6.  After a successful call every stored route is the origin, then
    coordinates of selected shelters, then the origin again, and the
    shelter coordinates of all routes together are the selected shelters'
    coordinates, each as often as it was passed in. *)
Theorem X6_routes_pass_through_the_shelters :
  exists interiors : list (list (Location fl)),
    route_data
      (solve_vrp SolveWithParameters fuel st start_point shelters num_vehicles).1.1
    = (fun interior => [start_point] ++ interior ++ [start_point]) <$> interiors /\
    mjoin interiors ≡ₚ shelters.
Proof using Hshelters Hmatrix Hsolve Hok Hfuel.
  exists ((fun v => location_of locations start_point
                      <$> vehicle_destinations routing solution v)
          <$> range num_vehicles).
  split.
  - rewrite (route_data_solved SolveWithParameters fuel st start_point shelters
               num_vehicles distance_matrix solution
               Hshelters Hmatrix Hsolve Hok Hfuel).
    rewrite <- list_fmap_compose. apply list_fmap_ext. intros _ v _. done.
  - assert ((fun v => location_of locations start_point
                        <$> vehicle_destinations routing solution v)
            <$> range num_vehicles
            = fmap (location_of locations start_point)
              <$> (vehicle_destinations routing solution <$> range num_vehicles))
      as -> by (by rewrite <- list_fmap_compose).
    rewrite join_fmap_fmap.
    pose proof (proj1 (bool_decide_eq_true _) Hok) as Hvalid.
    rewrite (destinations_permutation distance_matrix (length locations)
               num_vehicles solution Hvalid ltac:(simpl; lia)).
    replace (length locations - 1)%nat with (length shelters) by (simpl; lia).
    by rewrite location_of_destinations.
Qed.
End StoredRoutes.


Lemma X6_witness :
  let outcome :=
    solve_vrp (fl := Binary64.ops) (constant_solver (Some ThreeStops.one_tour)) 20
      fresh_session ThreeStops.origin ThreeStops.destinations 5 in
  exists interiors : list (list (Location Binary64.ops)),
    route_data outcome.1.1
    = (fun interior => [ThreeStops.origin] ++ interior ++ [ThreeStops.origin])
      <$> interiors /\
    mjoin interiors ≡ₚ ThreeStops.destinations.
Proof.
  apply (X6_routes_pass_through_the_shelters (fl := Binary64.ops)
           (constant_solver (Some ThreeStops.one_tour)) 20 fresh_session
           ThreeStops.origin ThreeStops.destinations 5
           ThreeStops.distance_matrix ThreeStops.one_tour).
  - discriminate.
  - vm_compute. reflexivity.
  - reflexivity.
  - vm_compute. reflexivity.
  - vm_compute. lia.
Defined.

(** ** Routes of any assignment *)

Lemma vehicle_loop_shape {fl : FloatOps} (locations : list (Location fl))
    (start_point : Location fl) routing solution fuel (vs : list nat)
    data t data' t' :
  (forall v, v ∈ vs ->
     IsEnd routing (Start routing v) = false /\
     location_of locations start_point
       (IndexToNode (manager_of routing) (Start routing v)) = start_point) ->
  for_each vs
    (vehicle_body locations start_point (manager_of routing) routing solution fuel)
    (data, t) = Ok (data', t') ->
  exists routes,
    data' = data ++ routes /\ length routes = length vs /\
    Forall (fun route => head route = Some start_point /\
                         last route = Some start_point) routes /\
    t' = t + stop_time_of_routes routes.
Proof.
  revert data t. induction vs as [|v vs IH]; intros data t Hstart Hrun.
  - simpl in Hrun. injection Hrun as <- <-. exists []. rewrite app_nil_r.
    repeat split; [constructor|]. unfold stop_time_of_routes. simpl. lia.
  - simpl in Hrun.
    destruct (route_loop locations start_point (manager_of routing) routing
                solution fuel (Start routing v) []) as [r| |] eqn:Hloop;
      simpl in Hrun; try done.
    destruct (route_loop_Ok _ _ _ _ _ _ _ _ Hloop) as (p & e & Hc & Hr).
    destruct (Hstart v ltac:(by left)) as [Hne Hloc].
    destruct (chain_not_end_inv _ _ _ _ _ Hc Hne) as (p' & -> & _).
    destruct (IH _ _ ltac:(intros; apply Hstart; by right) Hrun)
      as (routes & -> & Hlen & Hall & ->).
    exists ((r ++ [start_point]) :: routes). rewrite <- app_assoc.
    split; [done|]. split; [simpl; by rewrite Hlen|]. split.
    + constructor; [|done]. split; [|apply last_snoc].
      rewrite Hr. simpl. by rewrite Hloc.
    + rewrite stop_time_of_routes_cons. lia.
Qed.

(** X7.  Whatever assignment the solver hands back, a call that returns has
    stored one route per vehicle, each beginning and ending with the origin,
    together with a distance and a time: the depot at both ends comes from the
    loop of lines 163-171 and not from the solver. *)
Theorem X7_returned_routes_are_closed {fl : FloatOps} SolveWithParameters
    fuel (st : session_state (float fl)) (start_point : Location fl)
    (shelters : list (Location fl)) num_vehicles m solution :
  shelters <> [] ->
  build_distance_matrix (start_point :: shelters) = Ok m ->
  SolveWithParameters
    (routing_for m (length (start_point :: shelters)) num_vehicles)
    search_parameters_used = Some solution ->
  (solve_vrp SolveWithParameters fuel st start_point shelters num_vehicles).2
  = Ok tt ->
  let outcome :=
    solve_vrp SolveWithParameters fuel st start_point shelters num_vehicles in
  length (route_data outcome.1.1) = num_vehicles /\
  Forall (fun route => head route = Some start_point /\
                       last route = Some start_point)
         (route_data outcome.1.1) /\
  route_distance outcome.1.1
  = Some (int_truediv fl (ObjectiveValue solution) 1000) /\
  is_Some (route_time outcome.1.1).
Proof.
  intros Hne Hm Hsolve. cbv zeta.
  destruct shelters as [|shelter shelters]; [done|].
  rewrite solve_vrp_unfold. cbv zeta. rewrite Hm, Hsolve.
  set (locations := start_point :: shelter :: shelters).
  set (routing := routing_for m (length locations) num_vehicles).
  assert (manager_of routing = {| num_nodes := length locations;
            manager_vehicles := num_vehicles; depot := 0 |}) as Hmgr
    by apply manager_of_routing_for.
  rewrite <- Hmgr.
  destruct (for_each _ _ _) as [[data t]| |] eqn:Hrun; simpl; try done.
  intros _.
  destruct (vehicle_loop_shape locations start_point routing solution fuel
              (range num_vehicles) [] 0 data t) as (routes & -> & Hlen & Hall & _);
    [|exact Hrun|].
  - intros v Hv. apply elem_of_seq in Hv. split.
    + apply Start_not_end; [rewrite Hmgr; simpl; lia|].
      unfold routing. rewrite vehicles_routing_for. lia.
    + unfold routing.
      rewrite (IndexToNode_Start m (length locations) num_vehicles
                 ltac:(simpl; lia) v).
      done.
  - rewrite length_range in Hlen. simpl. by eauto.
Qed.

Lemma X7_witness :
  let outcome :=
    solve_vrp (fl := Binary64.ops) (constant_solver (Some ThreeStops.one_tour)) 20
      fresh_session ThreeStops.origin ThreeStops.destinations 5 in
  length (route_data outcome.1.1) = 5%nat /\
  Forall (fun route => head route = Some ThreeStops.origin /\
                       last route = Some ThreeStops.origin)
         (route_data outcome.1.1) /\
  route_distance outcome.1.1
  = Some (int_truediv Binary64.ops (ObjectiveValue ThreeStops.one_tour) 1000) /\
  is_Some (route_time outcome.1.1).
Proof.
  apply (X7_returned_routes_are_closed (fl := Binary64.ops)
           (constant_solver (Some ThreeStops.one_tour)) 20 fresh_session
           ThreeStops.origin ThreeStops.destinations 5
           ThreeStops.distance_matrix ThreeStops.one_tour).
  - discriminate.
  - vm_compute. reflexivity.
  - reflexivity.
  - vm_compute. reflexivity.
Defined.

(** ** Session defaults *)

Lemma set_if_absent_lookup {F} key (v : session_value F) ss key' :
  set_if_absent key v ss !! key'
  = match ss !! key' with
    | Some x => Some x
    | None => if decide (key = key') then Some v else None
    end.
Proof.
  unfold set_if_absent. destruct (decide (is_Some (ss !! key))) as [[x Hx]|Hnone].
  - destruct (ss !! key') as [y|] eqn:Hy; [done|].
    destruct (decide (key = key')) as [->|]; [congruence|done].
  - destruct (decide (key = key')) as [->|Hne].
    + rewrite lookup_insert_eq. destruct (ss !! key') eqn:E; [|done].
      exfalso. apply Hnone. by eexists.
    + rewrite lookup_insert_ne by done. by destruct (ss !! key').
Qed.

Lemma set_if_absent_present {F} key (v : session_value F) ss :
  is_Some (ss !! key) -> set_if_absent key v ss = ss.
Proof. intros H. unfold set_if_absent. by rewrite decide_True. Qed.

Lemma init_session_lookup {F} (default_coords : F * F) ss key :
  init_session default_coords ss !! key
  = match ss !! key with
    | Some x => Some x
    | None =>
        if decide (key = "user_coords")
        then Some (coords_value default_coords.1 default_coords.2)
        else if decide (key = "shelter_selected") then Some (set_value ∅)
        else if decide (key = "num_vehicles") then Some (int_value 1)
        else if decide (key = "route_distance") then Some none_value
        else if decide (key = "route_time") then Some none_value
        else if decide (key = "route_data") then Some (list_value [])
        else None
    end.
Proof.
  unfold init_session. rewrite !set_if_absent_lookup.
  destruct (ss !! key) as [x|]; [done|].
  repeat (case_decide; subst; try done).
Qed.

(** X8.  After lines 13-24 each of the six session keys the script reads
    later is present, whatever the session held before, so none of the later
    reads can miss its key. *)
Theorem X8_init_session_provides_keys {F} (default_coords : F * F)
    (ss : gmap string (session_value F)) :
  Forall (fun key => is_Some (init_session default_coords ss !! key))
         session_keys.
Proof.
  apply Forall_forall. intros key Hkey. rewrite init_session_lookup.
  destruct (ss !! key) as [x|]; [by eexists|].
  unfold session_keys in Hkey.
  repeat (apply elem_of_cons in Hkey as [->|Hkey]; [by eexists|]).
  by apply elem_of_nil in Hkey.
Qed.

(** X9.  Lines 13-24 never overwrite: an entry that is in the session keeps
    its value, keys other than the six are left as they are, and running the
    lines again changes nothing.  This is what lets the selection and the
    last results survive the script's reruns. *)
Theorem X9_init_session_keeps_entries {F} (default_coords : F * F)
    (ss : gmap string (session_value F)) :
  (forall key v, ss !! key = Some v ->
     init_session default_coords ss !! key = Some v) /\
  (forall key, key ∉ session_keys ->
     init_session default_coords ss !! key = ss !! key) /\
  init_session default_coords (init_session default_coords ss)
  = init_session default_coords ss.
Proof.
  split; [|split].
  - intros key v Hkey. by rewrite init_session_lookup, Hkey.
  - intros key Hkey. rewrite init_session_lookup.
    destruct (ss !! key) as [x|]; [done|].
    unfold session_keys in Hkey.
    repeat (case_decide; [subst; exfalso; apply Hkey; set_solver|]). done.
  - apply map_eq. intros key. rewrite (init_session_lookup _ (init_session _ _)).
    destruct (init_session default_coords ss !! key) as [x|] eqn:Hx; [done|].
    rewrite init_session_lookup in Hx.
    destruct (ss !! key); [done|].
    repeat (case_decide; [done|]). done.
Qed.

(** ** The checkbox loop *)

Lemma checkbox_step_other checkbox (selected : gset string) name x :
  x <> name -> x ∈ checkbox_step checkbox selected name <-> x ∈ selected.
Proof.
  intros Hne. unfold checkbox_step.
  destruct (checkbox name _); set_solver.
Qed.

Lemma checkbox_step_self checkbox (selected : gset string) name :
  name ∈ checkbox_step checkbox selected name
  <-> checkbox name (bool_decide (name ∈ selected)) = true.
Proof.
  unfold checkbox_step.
  destruct (checkbox name _); set_solver.
Qed.

Lemma foldl_checkbox_step_other checkbox names (selected : gset string) x :
  x ∉ names ->
  x ∈ foldl (checkbox_step checkbox) selected names <-> x ∈ selected.
Proof.
  revert selected. induction names as [|name names IH]; intros selected Hx; [done|].
  simpl. rewrite IH by set_solver. apply checkbox_step_other. set_solver.
Qed.

(** X10.  The checkbox loop touches only the names of the chosen district:
    whether any other name is selected is the same after the loop as before,
    so a selection made in one district stays while another district is
    shown. *)
Theorem X10_selection_elsewhere_is_kept {F} (checkbox : string -> bool -> bool)
    (filtered_shelters : list (shelter_row F)) (selected : gset string) x :
  x ∉ shelter_name <$> filtered_shelters ->
  x ∈ update_selection checkbox filtered_shelters selected <-> x ∈ selected.
Proof. apply foldl_checkbox_step_other. Qed.

Lemma foldl_checkbox_step_member checkbox names (selected : gset string) x :
  NoDup names -> x ∈ names ->
  x ∈ foldl (checkbox_step checkbox) selected names
  <-> checkbox x (bool_decide (x ∈ selected)) = true.
Proof.
  revert selected.
  induction names as [|name names IH]; intros selected Hnd Hx.
  - by apply elem_of_nil in Hx.
  - apply NoDup_cons in Hnd as [Hnotin Hnd]. simpl.
    destruct (decide (x = name)) as [->|Hne].
    + rewrite foldl_checkbox_step_other by done. apply checkbox_step_self.
    + apply elem_of_cons in Hx as [?|Hx]; [done|].
      rewrite IH by done.
      assert (bool_decide (x ∈ checkbox_step checkbox selected name)
              = bool_decide (x ∈ selected)) as ->; [|done].
      apply bool_decide_ext. by apply checkbox_step_other.
Qed.

(** X11.  For a name shown once in the chosen district the loop makes the
    selection follow the box: the name is selected afterwards exactly when
    its checkbox, offered the name's current state as default, returned
    true. *)
Theorem X11_selection_follows_checkbox {F} (checkbox : string -> bool -> bool)
    (filtered_shelters : list (shelter_row F)) (selected : gset string) x :
  NoDup (shelter_name <$> filtered_shelters) ->
  x ∈ shelter_name <$> filtered_shelters ->
  x ∈ update_selection checkbox filtered_shelters selected
  <-> checkbox x (bool_decide (x ∈ selected)) = true.
Proof. apply foldl_checkbox_step_member. Qed.

(** X12.  When every checkbox returns the default it was given (nothing was
    clicked), the loop leaves the selection as it was. *)
Theorem X12_untouched_checkboxes_change_nothing {F}
    (checkbox : string -> bool -> bool)
    (filtered_shelters : list (shelter_row F)) (selected : gset string) :
  (forall name value, name ∈ shelter_name <$> filtered_shelters ->
     checkbox name value = value) ->
  update_selection checkbox filtered_shelters selected = selected.
Proof.
  unfold update_selection.
  generalize (shelter_name <$> filtered_shelters). intros names. revert selected.
  induction names as [|name names IH]; intros selected Hidle; [done|].
  simpl.
  assert (checkbox_step checkbox selected name = selected) as ->.
  { unfold checkbox_step. rewrite Hidle by (by left).
    case_bool_decide; set_solver. }
  apply IH. intros n v Hn. apply Hidle. by right.
Qed.

(** ** A run of the page *)

Lemma filter_none {A} (P : A -> Prop) `{!forall x, Decision (P x)} (l : list A) :
  (forall x, x ∈ l -> ~ P x) -> filter P l = [].
Proof.
  induction l as [|x l IH]; intros Hnone; [done|].
  rewrite filter_cons, decide_False by (apply Hnone; by left).
  apply IH. intros y Hy. apply Hnone. by right.
Qed.

Section PageFacts.
Context {fl : FloatOps}.
Variable SolveWithParameters :
  RoutingModel -> RoutingSearchParameters -> option Assignment.
Variable shelter_data : list (shelter_row (float fl)).
Local Abbreviation run := (script_run SolveWithParameters shelter_data).
Local Abbreviation selection_after :=
  (selection_after_checkboxes shelter_data).

Lemma script_run_state fuel w ps :
  user_coords (run fuel w ps).1.1.1 = origin_after_click w ps /\
  shelter_selected_names (run fuel w ps).1.1.1 = selection_after w ps /\
  session_num_vehicles (run fuel w ps).1.1.1 = slider_vehicles w /\
  outputs (run fuel w ps).1.1.1
  = if button_run w then
      (solve_vrp SolveWithParameters fuel (outputs ps) (origin_after_click w ps)
         (coordinates_of (rows_isin (selection_after w ps) shelter_data))
         (slider_vehicles w)).1.1
    else outputs ps.
Proof.
  unfold script_run.
  destruct (button_run w).
  - destruct (solve_vrp _ _ _ _ _ _) as [[outs evs] [[]| |]]; done.
  - done.
Qed.

Lemma script_run_view fuel w ps :
  (run fuel w ps).2 = Ok tt ->
  (run fuel w ps).1.2
  = Some (Build_page_view (origin_after_button w ps)
            (markers_drawn shelter_data w ps)
            (route_data (outputs (run fuel w ps).1.1.1))
            (route_distance (outputs (run fuel w ps).1.1.1))
            (route_time (outputs (run fuel w ps).1.1.1))).
Proof.
  unfold script_run.
  destruct (button_run w).
  - destruct (solve_vrp _ _ _ _ _ _) as [[outs evs] [[]| |]]; done.
  - done.
Qed.

(** X13.  The selection goes by name alone.  When the chosen district shows
    a name once, every row of the sheet with that name, in whatever
    district, is among the rows passed to [solve_vrp] exactly when that
    one checkbox returned true. *)
Theorem X13_rows_are_selected_by_name w ps row x :
  row ∈ shelter_data ->
  shelter_name row = x ->
  NoDup (shelter_name <$> rows_of_district (selectbox_district w) shelter_data) ->
  x ∈ shelter_name <$> rows_of_district (selectbox_district w) shelter_data ->
  row ∈ rows_isin (selection_after w ps) shelter_data
  <-> checkbox w x (bool_decide (x ∈ shelter_selected_names ps)) = true.
Proof.
  intros Hrow Hname Hnd Hx. unfold rows_isin.
  rewrite list_elem_of_filter, Hname.
  unfold selection_after_checkboxes, update_selection.
  rewrite (foldl_checkbox_step_member _ _ _ _ Hnd Hx). tauto.
Qed.

(** X14.  A click on the map wins over the origin button: the origin stored
    by the run, and passed to [solve_vrp] when the run button is pressed, is
    the clicked point.  The map drawn in that run is still centred, and has
    its green marker, where the origin was before the click was read. *)
Theorem X14_map_click_sets_the_origin fuel w ps lat lng :
  last_clicked w = Some (lat, lng) ->
  let out := script_run SolveWithParameters shelter_data fuel w ps in
  user_coords out.1.1.1 = (lat, lng) /\
  (button_run w = true ->
   outputs out.1.1.1
   = (solve_vrp SolveWithParameters fuel (outputs ps) (lat, lng)
        (coordinates_of (rows_isin (selection_after w ps) shelter_data))
        (slider_vehicles w)).1.1) /\
  (out.2 = Ok tt ->
   exists view, out.1.2 = Some view /\
     map_location view = origin_after_button w ps /\
     head (map_markers view)
     = Some (Build_marker (origin_after_button w ps) (Some "起点") green)).
Proof.
  intros Hclick out. unfold out.
  destruct (script_run_state fuel w ps) as (Hc & _ & _ & Ho).
  assert (origin_after_click w ps = (lat, lng)) as Hoc
    by (unfold origin_after_click; by rewrite Hclick).
  rewrite Hc, Ho, Hoc. split; [done|]. split.
  - by intros ->.
  - intros Hok. rewrite (script_run_view fuel w ps Hok). by eexists.
Qed.

(** X15.  The shelter markers are coloured before the checkboxes are read.
    A shelter of the chosen district that was not selected when the run
    began and whose box returns true in this run is routed by this run and
    drawn blue by it. *)
Theorem X15_newly_ticked_shelter_is_routed_but_blue fuel w ps row :
  row ∈ shelter_data ->
  district row = selectbox_district w ->
  NoDup (shelter_name <$> rows_of_district (selectbox_district w) shelter_data) ->
  shelter_name row ∉ shelter_selected_names ps ->
  checkbox w (shelter_name row) false = true ->
  (script_run SolveWithParameters shelter_data fuel w ps).2 = Ok tt ->
  (Latitude row, Longitude row)
  ∈ coordinates_of (rows_isin (selection_after w ps) shelter_data) /\
  exists view,
    (script_run SolveWithParameters shelter_data fuel w ps).1.2 = Some view /\
    Build_marker (Latitude row, Longitude row) (Some (shelter_name row)) blue
    ∈ map_markers view.
Proof.
  intros Hrow Hdistrict Hnd Hnot Hbox Hok. split.
  - unfold coordinates_of. apply list_elem_of_fmap. exists row. split; [done|].
    unfold rows_isin. apply list_elem_of_filter. split; [|done].
    unfold selection_after_checkboxes, update_selection.
    apply (foldl_checkbox_step_member _ _ _ _ Hnd).
    + apply list_elem_of_fmap. exists row. split; [done|].
      unfold rows_of_district. by apply list_elem_of_filter.
    + by rewrite bool_decide_eq_false_2.
  - rewrite (script_run_view fuel w ps Hok). eexists. split; [done|].
    simpl. unfold markers_drawn. right.
    apply list_elem_of_fmap. exists row. split; [|done].
    unfold shelter_marker. by rewrite decide_False.
Qed.

(** X16.  A run in which the run button is not pressed changes none of the
    stored outputs, whatever else was clicked: the route lines drawn and the
    two metrics shown are those of the last successful solve, also after the
    selection or the origin has changed. *)
Theorem X16_without_the_run_button_outputs_stay fuel w ps :
  button_run w = false ->
  let out := script_run SolveWithParameters shelter_data fuel w ps in
  out.2 = Ok tt /\
  outputs out.1.1.1 = outputs ps /\
  exists view, out.1.2 = Some view /\
    map_polylines view = route_data (outputs ps) /\
    metric_distance view = route_distance (outputs ps) /\
    metric_time view = route_time (outputs ps).
Proof.
  intros Hrun out. unfold out.
  assert ((run fuel w ps).2 = Ok tt) as Hok
    by (unfold script_run; by rewrite Hrun).
  destruct (script_run_state fuel w ps) as (_ & _ & _ & Ho).
  rewrite Hrun in Ho.
  split; [done|]. split; [done|].
  rewrite (script_run_view fuel w ps Hok), Ho. by eexists.
Qed.

(** X17.  When the run button is pressed and no row of the sheet bears a
    selected name, the run ends with the warning of [solve_vrp] as its last
    message, keeps the stored outputs, and draws the old route lines. *)
Theorem X17_run_without_selected_rows_warns fuel w ps :
  button_run w = true ->
  (forall row, row ∈ shelter_data -> shelter_name row ∉ selection_after w ps) ->
  let out := script_run SolveWithParameters shelter_data fuel w ps in
  out.2 = Ok tt /\
  last out.1.1.2 = Some (solve_event (st_warning warning_message)) /\
  outputs out.1.1.1 = outputs ps /\
  exists view, out.1.2 = Some view /\
    map_polylines view = route_data (outputs ps).
Proof.
  intros Hrun Hnone out. unfold out.
  assert (rows_isin (selection_after w ps) shelter_data = []) as Hrows.
  { unfold rows_isin. by apply filter_none. }
  assert (run fuel w ps
          = (Build_page_state (origin_after_click w ps) (selection_after w ps)
               (slider_vehicles w) (outputs ps),
             (if button_set_origin w
              then [origin_set (number_input_lat w (user_coords ps).1)
                               (number_input_lon w (user_coords ps).2)]
              else [])
             ++ match last_clicked w with
                | Some (lat, lng) => [origin_clicked lat lng]
                | None => []
                end
             ++ [solve_event (st_warning warning_message)],
             Some (Build_page_view (origin_after_button w ps)
                     (markers_drawn shelter_data w ps)
                     (route_data (outputs ps)) (route_distance (outputs ps))
                     (route_time (outputs ps))),
             Ok tt)) as ->.
  { unfold script_run. rewrite Hrun, Hrows. reflexivity. }
  simpl. split; [done|]. split; [|split; [done|by eexists]].
  rewrite app_assoc. apply last_snoc.
Qed.

(** X18.  When the run button is pressed and the solve goes through, the run
    draws one route line per vehicle of the slider, each starting and ending
    at the origin the run ends with, and shows the new distance and time. *)
Theorem X18_successful_run_draws_closed_routes fuel w ps m solution :
  button_run w = true ->
  coordinates_of (rows_isin (selection_after w ps) shelter_data) <> [] ->
  build_distance_matrix
    (origin_after_click w ps
     :: coordinates_of (rows_isin (selection_after w ps) shelter_data)) = Ok m ->
  SolveWithParameters
    (routing_for m
       (length (origin_after_click w ps
                :: coordinates_of (rows_isin (selection_after w ps) shelter_data)))
       (slider_vehicles w))
    search_parameters_used = Some solution ->
  solution_ok
    (routing_for m
       (length (origin_after_click w ps
                :: coordinates_of (rows_isin (selection_after w ps) shelter_data)))
       (slider_vehicles w))
    solution = true ->
  (Size (routing_for m
           (length (origin_after_click w ps
                    :: coordinates_of (rows_isin (selection_after w ps) shelter_data)))
           (slider_vehicles w)) < fuel)%nat ->
  let out := script_run SolveWithParameters shelter_data fuel w ps in
  out.2 = Ok tt /\
  user_coords out.1.1.1 = origin_after_click w ps /\
  exists view, out.1.2 = Some view /\
    length (map_polylines view) = slider_vehicles w /\
    Forall (fun route => head route = Some (origin_after_click w ps) /\
                         last route = Some (origin_after_click w ps))
           (map_polylines view) /\
    metric_distance view = Some (int_truediv fl (ObjectiveValue solution) 1000) /\
    is_Some (metric_time view).
Proof.
  intros Hrun Hne Hm Hsolve Hok Hfuel out. unfold out.
  pose proof (outcome_solved SolveWithParameters fuel (outputs ps)
                (origin_after_click w ps)
                (coordinates_of (rows_isin (selection_after w ps) shelter_data))
                (slider_vehicles w) m solution Hne Hm Hsolve Hok Hfuel) as Hsolved.
  pose proof (route_data_solved SolveWithParameters fuel (outputs ps)
                (origin_after_click w ps)
                (coordinates_of (rows_isin (selection_after w ps) shelter_data))
                (slider_vehicles w) m solution Hne Hm Hsolve Hok Hfuel) as Hroutes.
  assert ((run fuel w ps).2 = Ok tt) as Hend
    by (unfold script_run; by rewrite Hrun, Hsolved).
  destruct (script_run_state fuel w ps) as (Hc & _ & _ & Ho).
  rewrite Hrun in Ho.
  split; [done|]. split; [done|].
  rewrite (script_run_view fuel w ps Hend), Ho. eexists. split; [done|].
  simpl. rewrite Hroutes. split; [by rewrite length_fmap, length_range|]. split.
  - apply Forall_fmap, Forall_forall. intros v _. simpl.
    unfold route_of_nodes. split; [done|]. apply last_snoc.
  - rewrite Hsolved. simpl. split; [done|by eexists].
Qed.
End PageFacts.

(** ** The sample page *)

Lemma SamplePage_north_names :
  shelter_name <$> rows_of_district "north" SamplePage.sheet = ["hall"; "school"].
Proof. reflexivity. Qed.

Lemma SamplePage_north_names_NoDup :
  NoDup (shelter_name <$> rows_of_district "north" SamplePage.sheet).
Proof.
  rewrite SamplePage_north_names.
  repeat (apply NoDup_cons; split; [set_solver|]). apply NoDup_nil_2.
Qed.

Lemma X10_witness :
  "tower" ∈ update_selection
              (checkbox (SamplePage.tick "hall" None true))
              (rows_of_district "north" SamplePage.sheet) {["tower"]}
  <-> "tower" ∈ ({["tower"]} : gset string).
Proof.
  apply (X10_selection_elsewhere_is_kept
           (checkbox (SamplePage.tick "hall" None true))
           (rows_of_district "north" SamplePage.sheet) {["tower"]} "tower").
  rewrite SamplePage_north_names. set_solver.
Defined.

Lemma X11_witness :
  "hall" ∈ update_selection
             (checkbox (SamplePage.tick "hall" None true))
             (rows_of_district "north" SamplePage.sheet) ∅
  <-> checkbox (SamplePage.tick "hall" None true) "hall"
        (bool_decide ("hall" ∈ (∅ : gset string))) = true.
Proof.
  apply (X11_selection_follows_checkbox
           (checkbox (SamplePage.tick "hall" None true))
           (rows_of_district "north" SamplePage.sheet) ∅ "hall").
  - exact SamplePage_north_names_NoDup.
  - rewrite SamplePage_north_names. set_solver.
Defined.

Lemma X12_witness :
  update_selection (fun _ value => value)
    (rows_of_district "north" SamplePage.sheet) {["hall"]}
  = {["hall"]}.
Proof.
  apply (X12_untouched_checkboxes_change_nothing (fun _ value => value)
           (rows_of_district "north" SamplePage.sheet) {["hall"]}).
  intros name value _. reflexivity.
Defined.

Lemma X13_witness :
  SamplePage.row "south" "hall" 1%float 1%float
  ∈ rows_isin
      (selection_after_checkboxes (fl := Binary64.ops) SamplePage.sheet
         (SamplePage.tick "hall" None true) SamplePage.start_page)
      SamplePage.sheet
  <-> checkbox (SamplePage.tick "hall" None true) "hall"
        (bool_decide ("hall" ∈ shelter_selected_names SamplePage.start_page))
      = true.
Proof.
  apply (X13_rows_are_selected_by_name (fl := Binary64.ops) SamplePage.sheet
           (SamplePage.tick "hall" None true) SamplePage.start_page
           (SamplePage.row "south" "hall" 1%float 1%float) "hall").
  - do 2 apply list_elem_of_further. apply list_elem_of_here.
  - reflexivity.
  - exact SamplePage_north_names_NoDup.
  - change ("hall" ∈ shelter_name <$> rows_of_district "north" SamplePage.sheet).
    rewrite SamplePage_north_names. set_solver.
Defined.

Lemma X14_witness :
  let out :=
    script_run (fl := Binary64.ops) (constant_solver (Some OneStop.solution))
      SamplePage.sheet 10
      (SamplePage.tick "school" (Some (0%float, 0%float)) true)
      (Build_page_state (1%float, 1%float) ∅ 1 fresh_session) in
  user_coords out.1.1.1 = (0%float, 0%float) /\
  (button_run (SamplePage.tick "school" (Some (0%float, 0%float)) true) = true ->
   outputs out.1.1.1
   = (solve_vrp (fl := Binary64.ops) (constant_solver (Some OneStop.solution)) 10
        fresh_session (0%float, 0%float)
        (coordinates_of
           (rows_isin
              (selection_after_checkboxes (fl := Binary64.ops) SamplePage.sheet
                 (SamplePage.tick "school" (Some (0%float, 0%float)) true)
                 (Build_page_state (1%float, 1%float) ∅ 1 fresh_session))
              SamplePage.sheet))
        1).1.1) /\
  (out.2 = Ok tt ->
   exists view, out.1.2 = Some view /\
     map_location view = (1%float, 1%float) /\
     head (map_markers view)
     = Some (Build_marker (1%float, 1%float) (Some "起点") green)).
Proof.
  apply (X14_map_click_sets_the_origin (fl := Binary64.ops)
           (constant_solver (Some OneStop.solution)) SamplePage.sheet 10
           (SamplePage.tick "school" (Some (0%float, 0%float)) true)
           (Build_page_state (1%float, 1%float) ∅ 1 fresh_session)
           0%float 0%float).
  reflexivity.
Defined.

Lemma SamplePage_tick_none_selection :
  selection_after_checkboxes (fl := Binary64.ops) SamplePage.sheet
    (SamplePage.tick "none" None true) SamplePage.start_page = ∅.
Proof. vm_compute. reflexivity. Qed.

Lemma X15_witness :
  let w := SamplePage.tick "school" None true in
  let out :=
    script_run (fl := Binary64.ops) (constant_solver (Some OneStop.solution))
      SamplePage.sheet 10 w SamplePage.start_page in
  (0%float, 1%float)
  ∈ coordinates_of
      (rows_isin
         (selection_after_checkboxes (fl := Binary64.ops) SamplePage.sheet w
            SamplePage.start_page)
         SamplePage.sheet) /\
  exists view, out.1.2 = Some view /\
    Build_marker (0%float, 1%float) (Some "school") blue ∈ map_markers view.
Proof.
  apply (X15_newly_ticked_shelter_is_routed_but_blue (fl := Binary64.ops)
           (constant_solver (Some OneStop.solution)) SamplePage.sheet 10
           (SamplePage.tick "school" None true) SamplePage.start_page
           (SamplePage.row "north" "school" 0%float 1%float)).
  - apply list_elem_of_further. apply list_elem_of_here.
  - reflexivity.
  - exact SamplePage_north_names_NoDup.
  - simpl. set_solver.
  - reflexivity.
  - vm_compute. reflexivity.
Defined.

Lemma X16_witness :
  let ps := Build_page_state (0%float, 0%float) {["hall"]} 1 OneStop.solved in
  let out :=
    script_run (fl := Binary64.ops) (constant_solver None) SamplePage.sheet 10
      (SamplePage.tick "school" (Some (1%float, 1%float)) false) ps in
  out.2 = Ok tt /\
  outputs out.1.1.1 = OneStop.solved /\
  exists view, out.1.2 = Some view /\
    map_polylines view = route_data OneStop.solved /\
    metric_distance view = route_distance OneStop.solved /\
    metric_time view = route_time OneStop.solved.
Proof.
  apply (X16_without_the_run_button_outputs_stay (fl := Binary64.ops)
           (constant_solver None) SamplePage.sheet 10
           (SamplePage.tick "school" (Some (1%float, 1%float)) false)
           (Build_page_state (0%float, 0%float) {["hall"]} 1 OneStop.solved)).
  reflexivity.
Defined.

Lemma X17_witness :
  let out :=
    script_run (fl := Binary64.ops) (constant_solver (Some OneStop.solution))
      SamplePage.sheet 10 (SamplePage.tick "none" None true)
      SamplePage.start_page in
  out.2 = Ok tt /\
  last out.1.1.2 = Some (solve_event (st_warning warning_message)) /\
  outputs out.1.1.1 = fresh_session /\
  exists view, out.1.2 = Some view /\
    map_polylines view = route_data fresh_session.
Proof.
  apply (X17_run_without_selected_rows_warns (fl := Binary64.ops)
           (constant_solver (Some OneStop.solution)) SamplePage.sheet 10
           (SamplePage.tick "none" None true) SamplePage.start_page).
  - reflexivity.
  - intros row _. rewrite SamplePage_tick_none_selection. set_solver.
Defined.

Lemma X18_witness :
  let w := SamplePage.tick "school" None true in
  let out :=
    script_run (fl := Binary64.ops) (constant_solver (Some OneStop.solution))
      SamplePage.sheet 10 w SamplePage.start_page in
  out.2 = Ok tt /\
  user_coords out.1.1.1 = (0%float, 0%float) /\
  exists view, out.1.2 = Some view /\
    length (map_polylines view) = 1%nat /\
    Forall (fun route => head route = Some (0%float, 0%float) /\
                         last route = Some (0%float, 0%float))
           (map_polylines view) /\
    metric_distance view
    = Some (int_truediv Binary64.ops (ObjectiveValue OneStop.solution) 1000) /\
    is_Some (metric_time view).
Proof.
  apply (X18_successful_run_draws_closed_routes (fl := Binary64.ops)
           (constant_solver (Some OneStop.solution)) SamplePage.sheet 10
           (SamplePage.tick "school" None true) SamplePage.start_page
           OneStop.distance_matrix OneStop.solution).
  - reflexivity.
  - vm_compute. discriminate.
  - vm_compute. reflexivity.
  - reflexivity.
  - vm_compute. reflexivity.
  - vm_compute. lia.
Defined.
